(** * feedr: social graph, visibility and feed composition

    A shallow embedding of the follow graph, the engagement counters, the
    post visibility filter, the unified feed merge and the notification
    fan-out of the feedr FastAPI backend (app/api/v1/endpoints/users.py,
    posts.py and feed.py, app/services/feed_service.py, repost_service.py
    and notification_service.py, app/api/deps.py, app/db/session.py), with
    the properties its design document states about them.

    Conventions of the embedding.
    - A table with a primary key is a finite map from the key to the row
      ([users], [posts], [reposts]) or, when the row is its key, a finite
      set ([follows], [follow_requests]).  Tables without a uniqueness
      constraint on what the code selects by ([likes], [notifications]) are
      lists of rows; the generated id of such a row is left out.
    - UUIDs are opaque tokens, modelled as [N].
    - The counter columns are filled with [default=0] by every insert of the
      ORM; they are integers ([Z]).  The source's [x or 0] is kept as [or0].
    - [created_at] is a nullable DateTime: [option Z], a count of
      microseconds; [timestamp] turns it into the sort key of the feed.
    - A request runs inside the session that [get_db] yields: [request]
      opens it, commits when the handler returns and rolls back when it
      raises.  Handlers are written in the monad [M] over [Session].
    - A write goes to the session's view of the tables at once.  The session
      does not autoflush, and no handler reads a table between writing to it
      and committing, so this is what the flush of the commit makes of the
      pending writes; the one failure of that flush the handlers can cause,
      an INSERT that repeats a primary key, is recorded in [flush_conflict]
      and raised by [commit].
    - ORM objects are identity-mapped: two loads of one row are one object.
      An attribute write is therefore a write to the row with that id.
    - SQL leaves the order of rows with equal sort keys open; the model
      keeps them in table order.
    - Publishing a task to the broker raises when the broker cannot be
      reached; [broker] says whether it can. *)

From stdpp Require Import gmap strings list sorting.

#[local] Open Scope Z_scope.
Set Warnings "-clear-no-such-hyp".

Abbreviation UUID := N (only parsing).

(** ** Rows (app/models) *)

Module User.
Record t := mk {
    username : string;
    email : string;
    display_name : option string;
    bio : option string;
    avatar_url : option string;
    is_verified : bool;
    followers_count : Z;
    following_count : Z;
    who_can_comment : string;
    is_private : bool;
    is_restricted : bool;
    created_at : option Z
}.

Definition set_followers_count (c : Z) (u : t) : t :=
    mk (username u) (email u) (display_name u) (bio u) (avatar_url u)
       (is_verified u) c (following_count u) (who_can_comment u) (is_private u)
       (is_restricted u) (created_at u).

Definition set_following_count (c : Z) (u : t) : t :=
    mk (username u) (email u) (display_name u) (bio u) (avatar_url u)
       (is_verified u) (followers_count u) c (who_can_comment u) (is_private u)
       (is_restricted u) (created_at u).
End User.

(** app/schemas/user.py, [UserUpdate]: every field is optional. *)
Module UserUpdate.
Record t := mk {
    display_name : option string;
    bio : option string;
    avatar_url : option string;
    who_can_comment : option string;
    is_private : option bool
}.
End UserUpdate.

Module Post.
Record t := mk {
    user_id : UUID;
    content : string;
    media_urls : option (list string);
    visibility : string;
    likes_count : Z;
    comments_count : Z;
    reposts_count : Z;
    views_count : Z;
    created_at : option Z
}.

Definition set_likes_count (c : Z) (p : t) : t :=
    mk (user_id p) (content p) (media_urls p) (visibility p) c
       (comments_count p) (reposts_count p) (views_count p) (created_at p).
End Post.

Module Like.
Record t := mk {
    user_id : UUID;
    post_id : option UUID;
    clip_id : option UUID;
    comment_id : option UUID
}.
End Like.

Module Repost.
Record t := mk {
    user_id : UUID;
    post_id : UUID;
    quote_text : string;
    created_at : option Z
}.
End Repost.

Module Notification.
Record t := mk {
    user_id : UUID;
    actor_id : UUID;
    type : string;
    text : string;
    target_post_id : option UUID;
    target_clip_id : option UUID;
    target_comment_id : option UUID;
    is_read : bool
}.
End Notification.

(** ** The store *)

Record DB := mkDB {
  users : gmap N User.t;
  posts : gmap N Post.t;
  follows : gset (N * N);          (* (follower_id, following_id) *)
  follow_requests : gset (N * N);  (* (requester_id, target_id) *)
  likes : list Like.t;
  reposts : gmap N Repost.t;
  notifications : list Notification.t
}.

Definition with_users (f : gmap N User.t → gmap N User.t) (d : DB) : DB :=
  mkDB (f (users d)) (posts d) (follows d) (follow_requests d) (likes d)
       (reposts d) (notifications d).
Definition with_posts (f : gmap N Post.t → gmap N Post.t) (d : DB) : DB :=
  mkDB (users d) (f (posts d)) (follows d) (follow_requests d) (likes d)
       (reposts d) (notifications d).
Definition with_follows (f : gset (N * N) → gset (N * N)) (d : DB) : DB :=
  mkDB (users d) (posts d) (f (follows d)) (follow_requests d) (likes d)
       (reposts d) (notifications d).
Definition with_follow_requests (f : gset (N * N) → gset (N * N)) (d : DB) : DB :=
  mkDB (users d) (posts d) (follows d) (f (follow_requests d)) (likes d)
       (reposts d) (notifications d).
Definition with_likes (f : list Like.t → list Like.t) (d : DB) : DB :=
  mkDB (users d) (posts d) (follows d) (follow_requests d) (f (likes d))
       (reposts d) (notifications d).
Definition with_notifications (f : list Notification.t → list Notification.t)
    (d : DB) : DB :=
  mkDB (users d) (posts d) (follows d) (follow_requests d) (likes d)
       (reposts d) (f (notifications d)).

(** A message handed to the task queue by [send_push_notification.delay]:
    recipient, title, body. *)
Definition Push : Type := N * string * string.

(** What persists between two requests: the committed tables, the messages
    the broker has accepted, and whether the broker can be reached. *)
Record World := mkWorld {
  db : DB;
  push_queue : list Push;
  broker_up : bool
}.

(** ** Exceptions and the session monad *)

Inductive exn :=
| HTTPException (status_code : Z) (detail : string)
| MultipleResultsFound
| IntegrityError
| OperationalError.

Definition HTTP_400_BAD_REQUEST : Z := 400.
Definition HTTP_401_UNAUTHORIZED : Z := 401.
Definition HTTP_403_FORBIDDEN : Z := 403.
Definition HTTP_404_NOT_FOUND : Z := 404.

(** The state of one request.  [session] is the view of the tables the
    handler reads and writes; [committed] is what the last commit made
    durable; [flush_conflict] records that a pending INSERT repeats a primary
    key, which makes the flush inside the next commit raise. *)
Record Session := mkSession {
  committed : DB;
  session : DB;
  flush_conflict : bool;
  outbox : list Push;
  broker : bool
}.

Definition M (A : Type) : Type := Session → (exn + A) * Session.

Definition ret {A} (a : A) : M A := λ s, (inr a, s).
Definition raise {A} (e : exn) : M A := λ s, (inl e, s).
Definition bind {A B} (m : M A) (k : A → M B) : M B :=
  λ s, match m s with
       | (inl e, s') => (inl e, s')
       | (inr a, s') => k a s'
       end.

Notation "x <- m ;; k" := (bind m (λ x, k))
  (at level 100, m at next level, right associativity).
Notation "m ;;; k" := (bind m (λ _, k))
  (at level 100, right associativity).

Definition query {A} (f : DB → A) : M A := λ s, (inr (f (session s)), s).
Definition execute (f : DB → DB) : M unit :=
  λ s, (inr tt, mkSession (committed s) (f (session s)) (flush_conflict s)
                          (outbox s) (broker s)).

(** [await db.commit()]: flush, then make the view durable. *)
Definition commit : M unit :=
  λ s, if flush_conflict s then (inl IntegrityError, s)
       else (inr tt, mkSession (session s) (session s) false (outbox s) (broker s)).

Definition rollback (s : Session) : Session :=
  mkSession (committed s) (committed s) false (outbox s) (broker s).

Definition open_session (w : World) : Session :=
  mkSession (db w) (db w) false (push_queue w) (broker_up w).
Definition close_session (s : Session) : World :=
  mkWorld (committed s) (outbox s) (broker s).

(** app/db/session.py, [get_db], around a handler:
    yield the session; commit; on any exception roll back and re-raise. *)
Definition request {A} (handler : M A) (w : World) : (exn + A) * World :=
  match handler (open_session w) with
  | (inr a, s) =>
      match commit s with
      | (inr _, s') => (inr a, close_session s')
      | (inl e, s') => (inl e, close_session (rollback s'))
      end
  | (inl e, s) => (inl e, close_session (rollback s))
  end.

(** [Result.scalar_one_or_none()] *)
Definition scalar_one_or_none {A} (rows : list A) : M (option A) :=
  match rows with
  | [] => ret None
  | [r] => ret (Some r)
  | _ => raise MultipleResultsFound
  end.

(** Python's [x or 0] on an integer, and [s or t] on an optional string. *)
Definition or0 (x : Z) : Z := if decide (x = 0) then 0 else x.
Definition or_str (s : option string) (t : string) : string :=
  match s with
  | Some (String a r) => String a r
  | _ => t
  end.

(** app/schemas/user.py, [UserResponse], and app/services/auth_service.py,
    [user_to_response]. *)
Module UserResponse.
Record t := mk {
    id : UUID;
    username : string;
    email : option string;
    display_name : option string;
    bio : option string;
    avatar_url : option string;
    is_verified : bool;
    followers_count : Z;
    following_count : Z;
    is_private : bool;
    created_at : option Z
}.
End UserResponse.

Definition user_to_response (user : UUID * User.t) (include_email : bool)
    : UserResponse.t :=
  UserResponse.mk user.1 (User.username user.2)
    (if include_email then Some (User.email user.2) else None)
    (User.display_name user.2) (User.bio user.2) (User.avatar_url user.2)
    (User.is_verified user.2) (User.followers_count user.2)
    (User.following_count user.2) (User.is_private user.2)
    (User.created_at user.2).

(** ** Queries and writes shared by the handlers *)

Definition select_user (user_id : UUID) : M (option User.t) :=
  query (λ d, users d !! user_id).

(** [db.add(Follow(...))]: the INSERT is sent by the flush of the next
    commit; a repeated primary key makes that flush raise. *)
Definition db_add_follow (follower_id following_id : UUID) : M unit :=
  λ s, if bool_decide ((follower_id, following_id) ∈ follows (session s))
       then (inr tt, mkSession (committed s) (session s) true (outbox s) (broker s))
       else execute (with_follows (λ f, {[ (follower_id, following_id) ]} ∪ f)) s.

Definition db_add_follow_request (requester_id target_id : UUID) : M unit :=
  λ s, if bool_decide ((requester_id, target_id) ∈ follow_requests (session s))
       then (inr tt, mkSession (committed s) (session s) true (outbox s) (broker s))
       else execute (with_follow_requests (λ f, {[ (requester_id, target_id) ]} ∪ f)) s.

(** [delete(Follow).where(...)], returning [rowcount]. *)
Definition delete_follow (follower_id following_id : UUID) : M nat :=
  present <- query (λ d, bool_decide ((follower_id, following_id) ∈ follows d)) ;;
  if (present : bool)
  then (execute (with_follows (λ f, f ∖ {[ (follower_id, following_id) ]})) ;;; ret 1%nat)
  else ret 0%nat.

Definition delete_follow_request (requester_id target_id : UUID) : M nat :=
  present <- query (λ d, bool_decide ((requester_id, target_id) ∈ follow_requests d)) ;;
  if (present : bool)
  then (execute (with_follow_requests (λ f, f ∖ {[ (requester_id, target_id) ]})) ;;; ret 1%nat)
  else ret 0%nat.

(** Attribute writes.  [incr_*] is [x.c = (x.c or 0) + 1]; on a user,
    [decr_*] is [if x.c > 0: x.c -= 1]; on a post,
    [decr_likes] is [x.likes_count = max(0, (x.likes_count or 0) - 1)]. *)
Definition incr_followers (u : User.t) : User.t :=
  User.set_followers_count (or0 (User.followers_count u) + 1) u.
Definition incr_following (u : User.t) : User.t :=
  User.set_following_count (or0 (User.following_count u) + 1) u.
Definition decr_followers (u : User.t) : User.t :=
  if bool_decide (0 < User.followers_count u)
  then User.set_followers_count (User.followers_count u - 1) u else u.
Definition decr_following (u : User.t) : User.t :=
  if bool_decide (0 < User.following_count u)
  then User.set_following_count (User.following_count u - 1) u else u.
Definition incr_likes (p : Post.t) : Post.t :=
  Post.set_likes_count (or0 (Post.likes_count p) + 1) p.
Definition decr_likes (p : Post.t) : Post.t :=
  Post.set_likes_count (0 `max` (or0 (Post.likes_count p) - 1)) p.

(** The same writes on the identity-mapped [User] object with a given id
    ([alter] does nothing when there is no such object: [if target and ...]). *)
Definition incr_followers_count (user_id : UUID) : M unit :=
  execute (with_users (alter incr_followers user_id)).
Definition incr_following_count (user_id : UUID) : M unit :=
  execute (with_users (alter incr_following user_id)).
Definition decr_followers_count (user_id : UUID) : M unit :=
  execute (with_users (alter decr_followers user_id)).
Definition decr_following_count (user_id : UUID) : M unit :=
  execute (with_users (alter decr_following user_id)).

(** ** app/api/deps.py *)

(** [creds] is the subject of a valid access token, or [None] when the
    request carries no usable credentials. *)
Definition get_current_user_optional (creds : option UUID)
    : M (option (UUID * User.t)) :=
  match creds with
  | None => ret None
  | Some sub => u <- select_user sub ;; ret ((λ r, (sub, r)) <$> u)
  end.

Definition get_current_user (creds : option UUID) : M (UUID * User.t) :=
  user <- get_current_user_optional creds ;;
  match user with
  | None => raise (HTTPException HTTP_401_UNAUTHORIZED "Not authenticated")
  | Some cu =>
      if User.is_restricted cu.2
      then raise (HTTPException HTTP_403_FORBIDDEN
             "Access Restricted: Your account access has been limited by the administrators. If you believe this is a mistake, please contact us at care@feedr.in.")
      else ret cu
  end.

(** ** app/workers/notifications.py and app/services/notification_service.py *)

(** [send_push_notification.delay(...)]: publishing to the broker raises
    when the broker cannot be reached. *)
Definition send_push_notification_delay (user_id : UUID) (title body : string)
    : M unit :=
  λ s, if broker s
       then (inr tt, mkSession (committed s) (session s) (flush_conflict s)
                               (outbox s ++ [(user_id, title, body)]) (broker s))
       else (inl OperationalError, s).

Definition create_notification (user_id actor_id : UUID)
    (notification_type text : string)
    (target_post_id target_clip_id target_comment_id : option UUID)
    : M (option Notification.t) :=
  if decide (user_id = actor_id) then ret None
  else
    let notification :=
      Notification.mk user_id actor_id notification_type text
                      target_post_id target_clip_id target_comment_id false in
    execute (with_notifications (λ l, l ++ [notification])) ;;;
    send_push_notification_delay user_id "feedr" text ;;;
    ret (Some notification).

(** ** app/api/v1/endpoints/users.py *)

Definition _is_following (follower_id following_id : UUID) : M bool :=
  query (λ d, bool_decide ((follower_id, following_id) ∈ follows d)).

Definition _has_pending_request (requester_id target_id : UUID) : M bool :=
  query (λ d, bool_decide ((requester_id, target_id) ∈ follow_requests d)).


Definition shown_name (u : User.t) : string :=
  or_str (User.display_name u) (User.username u).

Definition remove_follower (user_id : UUID) (creds : option UUID)
    : M (list (string * bool)) :=
  current_user <- get_current_user creds ;;
  rowcount <- delete_follow user_id current_user.1 ;;
  (if (0 <? rowcount)%nat
   then decr_following_count user_id ;;;
        decr_followers_count current_user.1 ;;;
        commit
   else ret tt) ;;;
  ret [("removed", true)].

Definition accept_follow_request (requester_id : UUID) (creds : option UUID)
    : M (list (string * bool)) :=
  current_user <- get_current_user creds ;;
  if decide (requester_id = current_user.1)
  then raise (HTTPException HTTP_400_BAD_REQUEST "Cannot accept your own request")
  else
    fr <- query (λ d,
            if bool_decide ((requester_id, current_user.1) ∈ follow_requests d)
            then Some (requester_id, current_user.1) else None) ;;
    match fr with
    | None => raise (HTTPException HTTP_404_NOT_FOUND "Follow request not found")
    | Some fr =>
      requester <- select_user requester_id ;;
      match requester with
      | None => raise (HTTPException HTTP_404_NOT_FOUND "Requester not found")
      | Some _ =>
          execute (with_follow_requests (λ f, f ∖ {[ fr ]})) ;;;
          db_add_follow requester_id current_user.1 ;;;
          incr_followers_count current_user.1 ;;;
          incr_following_count requester_id ;;;
          create_notification requester_id current_user.1
            "follow_request_accepted"
            (shown_name current_user.2 +:+ " accepted your follow request")
            None None None ;;;
          commit ;;;
          ret [("accepted", true)]
      end
    end.

Definition reject_follow_request (requester_id : UUID) (creds : option UUID)
    : M (list (string * bool)) :=
  current_user <- get_current_user creds ;;
  if decide (requester_id = current_user.1)
  then raise (HTTPException HTTP_400_BAD_REQUEST "Cannot reject your own request")
  else
    rowcount <- delete_follow_request requester_id current_user.1 ;;
    (if (0 <? rowcount)%nat then commit else ret tt) ;;;
    ret [("rejected", true)].

Definition follow_user (user_id : UUID) (creds : option UUID)
    : M (list (string * bool)) :=
  current_user <- get_current_user creds ;;
  if decide (user_id = current_user.1)
  then raise (HTTPException HTTP_400_BAD_REQUEST "Cannot follow yourself")
  else
    target <- select_user user_id ;;
    match target with
    | None => raise (HTTPException HTTP_404_NOT_FOUND "User not found")
    | Some target =>
        already <- _is_following current_user.1 user_id ;;
        if (already : bool)
        then ret [("follows", true); ("requested", false)]
        else if User.is_private target
        then
          existing_req <- _has_pending_request current_user.1 user_id ;;
          (if negb existing_req
           then db_add_follow_request current_user.1 user_id ;;;
                create_notification user_id current_user.1 "follow_request"
                  (shown_name current_user.2 +:+ " requested to follow you")
                  None None None ;;;
                commit
           else ret tt) ;;;
          ret [("follows", false); ("requested", true)]
        else
          db_add_follow current_user.1 user_id ;;;
          incr_followers_count user_id ;;;
          incr_following_count current_user.1 ;;;
          create_notification user_id current_user.1 "follow"
            (shown_name current_user.2 +:+ " started following you")
            None None None ;;;
          commit ;;;
          ret [("follows", true); ("requested", false)]
    end.

Definition cancel_follow_request (user_id : UUID) (creds : option UUID)
    : M (list (string * bool)) :=
  current_user <- get_current_user creds ;;
  rowcount <- delete_follow_request current_user.1 user_id ;;
  (if (0 <? rowcount)%nat then commit else ret tt) ;;;
  ret [("requested", false)].

Definition unfollow_user (user_id : UUID) (creds : option UUID)
    : M (list (string * bool)) :=
  current_user <- get_current_user creds ;;
  rowcount <- delete_follow current_user.1 user_id ;;
  (if (0 <? rowcount)%nat
   then decr_followers_count user_id ;;;
        decr_following_count current_user.1 ;;;
        commit
   else ret tt) ;;;
  ret [("follows", false)].

(** The assignments of [update_me]:
    [if data.f is not None: current_user.f = data.f] for each field. *)
Definition apply_update (data : UserUpdate.t) (u : User.t) : User.t :=
  User.mk (User.username u) (User.email u)
    (match UserUpdate.display_name data with
     | Some v => Some v | None => User.display_name u end)
    (match UserUpdate.bio data with
     | Some v => Some v | None => User.bio u end)
    (match UserUpdate.avatar_url data with
     | Some v => Some v | None => User.avatar_url u end)
    (User.is_verified u) (User.followers_count u) (User.following_count u)
    (default (User.who_can_comment u) (UserUpdate.who_can_comment data))
    (default (User.is_private u) (UserUpdate.is_private data))
    (User.is_restricted u) (User.created_at u).

Definition update_me (data : UserUpdate.t) (creds : option UUID)
    : M UserResponse.t :=
  current_user <- get_current_user creds ;;
  execute (with_users (alter (apply_update data) current_user.1)) ;;;
  commit ;;;
  refreshed <- select_user current_user.1 ;;
  ret (user_to_response (current_user.1, default current_user.2 refreshed) true).

(** ** Loaded ORM objects and response schemas (app/schemas) *)

(** A [Post] as a query with [selectinload(Post.user)] returns it. *)
Record PostObj := mkPostObj {
  po_id : UUID;
  po_row : Post.t;
  po_user : option (UUID * User.t)
}.

(** A [Repost] with [Repost.user], [Repost.post] and its [Post.user] loaded. *)
Record RepostObj := mkRepostObj {
  ro_id : UUID;
  ro_row : Repost.t;
  ro_user : option (UUID * User.t);
  ro_post : option PostObj
}.

Module UserPublic.
Record t := mk {
    id : UUID;
    username : string;
    display_name : option string;
    bio : option string;
    avatar_url : option string;
    is_verified : bool;
    followers_count : Z;
    following_count : Z;
    who_can_comment : string;
    is_private : bool;
    is_following : bool;
    is_requested : bool;
    created_at : option Z
}.
End UserPublic.

Module PostResponse.
Record t := mk {
    id : UUID;
    user_id : UUID;
    content : string;
    media_urls : list string;
    likes_count : Z;
    comments_count : Z;
    reposts_count : Z;
    views_count : Z;
    created_at : option Z;
    user : option UserPublic.t;
    visibility : string;
    is_liked : bool
}.
End PostResponse.

Module RepostResponse.
Record t := mk {
    id : UUID;
    quote_text : string;
    original_type : string;
    created_at : option Z;
    reposter_user : option UserPublic.t;
    original_post : option PostResponse.t
}.
End RepostResponse.


(** [s or d] on a string column. *)
Definition or_default (s d : string) : string :=
  if decide (s = "") then d else s.

(** The [UserPublic(...)] both services build from a loaded user. *)
Definition user_public (u : UUID * User.t) (is_following : bool) : UserPublic.t :=
  UserPublic.mk u.1 (User.username u.2) (User.display_name u.2) (User.bio u.2)
    (User.avatar_url u.2) (User.is_verified u.2) (User.followers_count u.2)
    (User.following_count u.2)
    (or_default (User.who_can_comment u.2) "everyone")
    false is_following false (User.created_at u.2).

(** app/services/feed_service.py, [post_to_response] *)
Definition post_to_response (post : PostObj) (is_liked is_following_author : bool)
    : PostResponse.t :=
  let user_public := (λ u, user_public u is_following_author) <$> po_user post in
  PostResponse.mk (po_id post) (Post.user_id (po_row post))
    (Post.content (po_row post))
    (default [] (Post.media_urls (po_row post)))
    (Post.likes_count (po_row post)) (Post.comments_count (po_row post))
    (Post.reposts_count (po_row post)) (Post.views_count (po_row post))
    (Post.created_at (po_row post))
    user_public
    (or_default (Post.visibility (po_row post)) "public")
    is_liked.


(** ** app/services/feed_service.py *)

(** [select(Post).where(Post.id == post_id).options(selectinload(Post.user))] *)
Definition load_post (d : DB) (row : UUID * Post.t) : PostObj :=
  mkPostObj row.1 row.2
    ((λ u, (Post.user_id row.2, u)) <$> users d !! Post.user_id row.2).

Definition select_post (post_id : UUID) : M (option PostObj) :=
  query (λ d, (λ r, load_post d (post_id, r)) <$> posts d !! post_id).

(** [select(Follow.following_id).where(Follow.follower_id == follower_id)] *)
Definition subq_following (d : DB) (follower_id : UUID) : gset N :=
  set_map (D:=gset N) snd (filter (λ e : N * N, e.1 = follower_id) (follows d)).

(** A stable sort: [x] is placed in front of the first element that is not
    strictly before it, so rows that compare equal keep their order. *)
Fixpoint insert_by {A} (before : A → A → bool) (x : A) (l : list A) : list A :=
  match l with
  | [] => [x]
  | y :: l' => if before y x then y :: insert_by before x l' else x :: y :: l'
  end.
Definition sort_by {A} (before : A → A → bool) (l : list A) : list A :=
  foldr (insert_by before) [] l.

(** [ORDER BY created_at DESC] of PostgreSQL: greater first, NULL first of all. *)
Definition sql_desc_before (a b : option Z) : bool :=
  match a, b with
  | None, Some _ => true
  | Some x, Some y => bool_decide (y < x)
  | _, _ => false
  end.

(** The WHERE clause of [get_feed_posts] and [get_user_posts_visible]. *)
Definition visibility_clause (d : DB) (current_user_id : option UUID) (p : Post.t)
    : bool :=
  match current_user_id with
  | None => bool_decide (Post.visibility p = "public")
  | Some cu =>
      bool_decide (Post.visibility p = "public")
      || (bool_decide (Post.visibility p = "private")
          && bool_decide (Post.user_id p = cu))
      || (bool_decide (Post.visibility p = "followers_only")
          && (bool_decide (Post.user_id p = cu)
              || bool_decide (Post.user_id p ∈ subq_following d cu)))
  end.

Definition get_feed_posts (d : DB) (current_user_id : option UUID)
    (skip limit : nat) : list PostObj :=
  let q := filter (λ r : N * Post.t, visibility_clause d current_user_id r.2)
                  (map_to_list (posts d)) in
  let q := sort_by (λ a b : N * Post.t,
                      sql_desc_before (Post.created_at a.2) (Post.created_at b.2)) q in
  load_post d <$> take limit (drop skip q).


Definition get_user_liked_post_ids (d : DB) (user_id : UUID)
    (post_ids : list UUID) : gset N :=
  match post_ids with
  | [] => ∅
  | _ => list_to_set
           (omap (λ l, match Like.post_id l with
                       | Some p => if bool_decide (Like.user_id l = user_id ∧ p ∈ post_ids)
                                   then Some p else None
                       | None => None
                       end) (likes d))
  end.


(** ** app/services/repost_service.py *)

Definition load_repost (d : DB) (row : UUID * Repost.t) : RepostObj :=
  mkRepostObj row.1 row.2
    ((λ u, (Repost.user_id row.2, u)) <$> users d !! Repost.user_id row.2)
    ((λ p, load_post d (Repost.post_id row.2, p)) <$> posts d !! Repost.post_id row.2).

Definition get_feed_reposts (d : DB) (current_user_id : UUID)
    (skip limit : nat) : list RepostObj :=
  let joined := omap (λ r : N * Repost.t,
                        (λ p, (r, p)) <$> posts d !! Repost.post_id r.2)
                     (map_to_list (reposts d)) in
  let q := filter (λ rp : (N * Repost.t) * Post.t,
             Repost.user_id rp.1.2 = current_user_id
             ∨ Repost.user_id rp.1.2 ∈ subq_following d current_user_id
             ∨ Post.user_id rp.2 ∈ subq_following d current_user_id
             ∨ Post.user_id rp.2 = current_user_id
             ∨ Post.visibility rp.2 = "public") joined in
  let q := sort_by (λ a b : (N * Repost.t) * Post.t,
             sql_desc_before (Repost.created_at a.1.2) (Repost.created_at b.1.2)) q in
  (λ rp, load_repost d rp.1) <$> take limit (drop skip q).

(** ** app/api/v1/endpoints/feed.py *)


(** The third component of an item of the merge; its constructor is the
    ["post"] / ["repost"] tag of the source's tuple. *)
Inductive FeedObj :=
| ObjPost (p : PostObj)
| ObjRepost (r : RepostObj).






(** ** app/api/v1/endpoints/posts.py *)

Definition get_post (post_id : UUID) (creds : option UUID) : M PostResponse.t :=
  current_user <- get_current_user_optional creds ;;
  post <- select_post post_id ;;
  match post with
  | None => raise (HTTPException HTTP_404_NOT_FOUND "Post not found")
  | Some post =>
      is_liked <-
        match current_user with
        | Some cu =>
            liked_ids <- query (λ d, get_user_liked_post_ids d cu.1 [po_id post]) ;;
            ret (bool_decide (po_id post ∈ liked_ids))
        | None => ret false
        end ;;
      ret (post_to_response post is_liked false)
  end.

Definition like_matches (post_id user_id : UUID) (l : Like.t) : Prop :=
  Like.post_id l = Some post_id ∧ Like.user_id l = user_id.

#[global] Instance like_matches_dec post_id user_id l :
  Decision (like_matches post_id user_id l).
Proof. unfold like_matches. apply _. Defined.

#[global] Instance Like_eq_dec : EqDecision Like.t.
Proof. solve_decision. Defined.

Definition like_post (post_id : UUID) (creds : option UUID) : M PostResponse.t :=
  current_user <- get_current_user creds ;;
  post <- select_post post_id ;;
  match post with
  | None => raise (HTTPException HTTP_404_NOT_FOUND "Post not found")
  | Some post =>
      rows <- query (λ d, filter (like_matches post_id current_user.1) (likes d)) ;;
      existing <- scalar_one_or_none rows ;;
      match existing with
      | Some _ => ret (post_to_response post true false)
      | None =>
          let like := Like.mk current_user.1 (Some post_id) None None in
          execute (with_likes (λ l, l ++ [like])) ;;;
          execute (with_posts (alter incr_likes post_id)) ;;;
          create_notification (Post.user_id (po_row post)) current_user.1 "like"
            (shown_name current_user.2 +:+ " liked your post")
            (Some post_id) None None ;;;
          commit ;;;
          refreshed <- select_post post_id ;;
          ret (post_to_response (default post refreshed) true false)
      end
  end.

Definition unlike_post (post_id : UUID) (creds : option UUID) : M PostResponse.t :=
  current_user <- get_current_user creds ;;
  post <- select_post post_id ;;
  match post with
  | None => raise (HTTPException HTTP_404_NOT_FOUND "Post not found")
  | Some post =>
      rows <- query (λ d, filter (like_matches post_id current_user.1) (likes d)) ;;
      like <- scalar_one_or_none rows ;;
      (match like with
       | Some like =>
           execute (with_likes (filter (λ l, l ≠ like))) ;;;
           execute (with_posts (alter decr_likes post_id))
       | None => ret tt
       end) ;;;
      commit ;;;
      refreshed <- select_post post_id ;;
      ret (post_to_response (default post refreshed) false false)
  end.

(** * Requests as transitions, and the predicates of the properties *)

(** One request, or one change of the environment, as the world sees it.
    [actor] is the subject of the request's credentials. *)
Inductive action :=
| Follow (actor : option N) (user_id : N)
| Unfollow (actor : option N) (user_id : N)
| RemoveFollower (actor : option N) (user_id : N)
| AcceptRequest (actor : option N) (requester_id : N)
| RejectRequest (actor : option N) (requester_id : N)
| CancelRequest (actor : option N) (user_id : N)
| LikePost (actor : option N) (post_id : N)
| UnlikePost (actor : option N) (post_id : N)
| UpdateMe (actor : option N) (data : UserUpdate.t)
| BrokerChange (up : bool).

Definition perform (a : action) (w : World) : World :=
  match a with
  | Follow actor user_id => (request (follow_user user_id actor) w).2
  | Unfollow actor user_id => (request (unfollow_user user_id actor) w).2
  | RemoveFollower actor user_id => (request (remove_follower user_id actor) w).2
  | AcceptRequest actor requester_id =>
      (request (accept_follow_request requester_id actor) w).2
  | RejectRequest actor requester_id =>
      (request (reject_follow_request requester_id actor) w).2
  | CancelRequest actor user_id => (request (cancel_follow_request user_id actor) w).2
  | LikePost actor post_id => (request (like_post post_id actor) w).2
  | UnlikePost actor post_id => (request (unlike_post post_id actor) w).2
  | UpdateMe actor data => (request (update_me data actor) w).2
  | BrokerChange up => mkWorld (db w) (push_queue w) up
  end.

Definition run (l : list action) (w : World) : World :=
  foldl (λ w a, perform a w) w l.

(** Readers of the denormalized counters. *)
Definition followers_count_of (d : DB) (u : N) : option Z :=
  User.followers_count <$> users d !! u.
Definition following_count_of (d : DB) (u : N) : option Z :=
  User.following_count <$> users d !! u.
Definition likes_count_of (d : DB) (p : N) : option Z :=
  Post.likes_count <$> posts d !! p.

Definition counters_nonneg (d : DB) : Prop :=
  map_Forall (λ _ u, 0 ≤ User.followers_count u ∧ 0 ≤ User.following_count u)
             (users d)
  ∧ map_Forall (λ _ p, 0 ≤ Post.likes_count p) (posts d).

Definition no_self_notification (d : DB) : Prop :=
  Forall (λ n, Notification.user_id n ≠ Notification.actor_id n) (notifications d).

(** Since [before], the notifications table has only gained rows whose
    recipient is not their actor. *)
Definition only_adds_foreign (before : list Notification.t) (d : DB) : Prop :=
  ∃ new, notifications d = before ++ new
         ∧ Forall (λ n, Notification.user_id n ≠ Notification.actor_id n) new.

(** A handler keeps a property of the tables: of what it leaves committed
    and of what it leaves in the session. *)
Definition preserves (P : DB → Prop) {A} (m : M A) : Prop :=
  ∀ s, P (committed s) → P (session s) →
       P (committed (m s).2) ∧ P (session (m s).2).





Definition like_rows (d : DB) (post user : N) : list Like.t :=
  filter (like_matches post user) (likes d).



Definition profile_private (d : DB) (u : N) : Prop :=
  User.is_private <$> users d !! u = Some true.



(** ** Sample data *)

Definition sample_user (name : string) (private : bool) : User.t :=
  User.mk name (name +:+ "@feedr.in") None None None false 0 0 "everyone"
          private false (Some 1).

Definition sample_post (author : N) (visibility : string) (at_ : Z) : Post.t :=
  Post.mk author "hello" None visibility 0 0 0 0 (Some at_).

(** alice (1) and bob (2) are public, carol (3) is private; alice wrote a
    public post (10), bob a private (11) and a followers-only (12) one. *)
Definition sample_db : DB :=
  mkDB (<[1%N := sample_user "alice" false]>
          (<[2%N := sample_user "bob" false]>
             (<[3%N := sample_user "carol" true]> ∅)))
       (<[10%N := sample_post 1 "public" 10]>
          (<[11%N := sample_post 2 "private" 8]>
             (<[12%N := sample_post 2 "followers_only" 5]> ∅)))
       ∅ ∅ [] ∅ [].

Definition sample_world : World := mkWorld sample_db [] true.
Definition sample_world_broker_down : World := mkWorld sample_db [] false.


(** * More of the handlers *)

(** ** app/api/v1/endpoints/users.py, the read side *)

Definition get_me (creds : option UUID) : M UserResponse.t :=
  current_user <- get_current_user creds ;;
  ret (user_to_response current_user true).

Definition check_follows_me (user_id : UUID) (creds : option UUID)
    : M (list (string * bool)) :=
  current_user <- get_current_user creds ;;
  follows <- query (λ d, bool_decide ((user_id, current_user.1) ∈ follows d)) ;;
  ret [("follows", follows)].

Definition check_following (user_id : UUID) (creds : option UUID)
    : M (list (string * bool)) :=
  current_user <- get_current_user creds ;;
  follows <- _is_following current_user.1 user_id ;;
  requested <- (if negb follows
                then _has_pending_request current_user.1 user_id
                else ret false) ;;
  ret [("follows", follows); ("requested", requested)].









(** ** app/services/feed_service.py and app/api/v1/endpoints/posts.py:
       creating, listing and editing posts *)

Module PostCreate.
Record t := mk {
    content : string;
    media_urls : option (list string);
    visibility : string
}.
End PostCreate.

Module PostUpdate.
Record t := mk {
    content : option string;
    media_urls : option (list string)
}.
End PostUpdate.









(** ** app/api/v1/endpoints/feed.py, [get_feed_reposts_endpoint] *)


(** ** app/services/notification_service.py and
       app/api/v1/endpoints/notifications.py, the read side

    The notifications table is a list and its rows carry no generated id:
    here the id of a row is its position in the table (rows are only ever
    appended). *)

Definition unread_of (user_id : UUID) (n : Notification.t) : Prop :=
  Notification.user_id n = user_id ∧ Notification.is_read n = false.

#[global] Instance unread_of_dec user_id n : Decision (unread_of user_id n).
Proof. unfold unread_of. apply _. Defined.

Definition set_is_read (n : Notification.t) : Notification.t :=
  Notification.mk (Notification.user_id n) (Notification.actor_id n)
    (Notification.type n) (Notification.text n) (Notification.target_post_id n)
    (Notification.target_clip_id n) (Notification.target_comment_id n) true.

Definition get_unread_count (d : DB) (user_id : UUID) : nat :=
  length (filter (unread_of user_id) (notifications d)).

(** [update(Notification).where(user_id == ..., is_read == False)
      .values(is_read=True)], returning [rowcount]. *)
Definition mark_all_read (user_id : UUID) : M nat :=
  rowcount <- query (λ d, length (filter (unread_of user_id) (notifications d))) ;;
  execute (with_notifications
             (fmap (λ n, if decide (unread_of user_id n) then set_is_read n else n))) ;;;
  ret rowcount.

Definition mark_one_read (user_id : UUID) (notification_id : nat) : M bool :=
  hit <- query (λ d, match notifications d !! notification_id with
                     | Some n => bool_decide (unread_of user_id n)
                     | None => false
                     end) ;;
  (if (hit : bool)
   then execute (with_notifications (alter set_is_read notification_id))
   else ret tt) ;;;
  ret hit.

Definition unread_count (creds : option UUID) : M (list (string * nat)) :=
  current_user <- get_current_user creds ;;
  count <- query (λ d, get_unread_count d current_user.1) ;;
  ret [("count", count)].

Definition mark_all_as_read (creds : option UUID) : M (list (string * nat)) :=
  current_user <- get_current_user creds ;;
  updated <- mark_all_read current_user.1 ;;
  ret [("updated", updated)].

Definition mark_one_as_read (notification_id : nat) (creds : option UUID)
    : M (list (string * bool)) :=
  current_user <- get_current_user creds ;;
  updated <- mark_one_read current_user.1 notification_id ;;
  ret [("updated", updated)].

(** * Predicates of the further properties *)




(** The counters of the users [m] are the in- and out-degrees in the edge
    set [F]. *)
Definition degrees_match (m : gmap N User.t) (F : gset (N * N)) : Prop :=
  map_Forall (λ u r,
    User.followers_count r = Z.of_nat (size (filter (λ e : N * N, e.2 = u) F))
    ∧ User.following_count r = Z.of_nat (size (filter (λ e : N * N, e.1 = u) F))) m.

Definition counters_consistent (d : DB) : Prop :=
  degrees_match (users d) (follows d).

(** A handler keeps a property of the session: what is committed satisfies
    [I], and so does the view unless a pending INSERT conflicts (the next
    commit then raises and the view is dropped). *)
Definition session_inv (I : DB → Prop) (s : Session) : Prop :=
  I (committed s) ∧ (flush_conflict s = false → I (session s)).

Definition keeps (I : DB → Prop) {A} (m : M A) : Prop :=
  ∀ s, session_inv I s → session_inv I (m s).2.

(** Each post's [likes_count] is the number of Like rows on it. *)
Definition likes_consistent (d : DB) : Prop :=
  map_Forall (λ p r,
    Post.likes_count r
    = Z.of_nat (length (filter (λ l, Like.post_id l = Some p) (likes d))))
    (posts d).











(** [ORDER BY created_at DESC] as a relation: NULL first, then descending. *)
Definition sql_desc_le (a b : option Z) : Prop :=
  match a, b with
  | None, _ => True
  | Some _, None => False
  | Some x, Some y => y ≤ x
  end.


(** Whom [get_feed_reposts] serves a repost of the post [p] to. *)
Definition repost_eligible (d : DB) (u : UUID) (r : Repost.t) (p : Post.t) : Prop :=
  Repost.user_id r = u
  ∨ (u, Repost.user_id r) ∈ follows d
  ∨ (u, Post.user_id p) ∈ follows d
  ∨ Post.user_id p = u
  ∨ Post.visibility p = "public".

(** The sample data with one repost: carol (3) follows alice (1), who has
    reposted bob's private post (11). *)
Definition sample_db_reposts : DB :=
  mkDB (users sample_db) (posts sample_db) {[ (3%N, 1%N) ]} ∅ []
       {[ 20%N := Repost.mk 1 11 "look" (Some 12) ]} [].

(** What no request of the follow graph, of likes or of the profile may
    change of an account and of a post. *)
Definition account_identity (u : User.t) : string * string * bool * bool * option Z :=
  (User.username u, User.email u, User.is_verified u, User.is_restricted u,
   User.created_at u).

Definition post_body (p : Post.t)
    : UUID * string * option (list string) * string * Z * Z * Z * option Z :=
  (Post.user_id p, Post.content p, Post.media_urls p, Post.visibility p,
   Post.comments_count p, Post.reposts_count p, Post.views_count p,
   Post.created_at p).

Definition same_identities (d0 d : DB) : Prop :=
  account_identity <$> users d = account_identity <$> users d0
  ∧ post_body <$> posts d = post_body <$> posts d0
  ∧ reposts d = reposts d0.

(** The push message of a notification, and the tables and queue in which
    every stored notification has had its message queued. *)
Definition push_of (n : Notification.t) : Push :=
  (Notification.user_id n, "feedr", Notification.text n).

Definition notified (d : DB) (q : list Push) : Prop :=
  ∀ n, n ∈ notifications d → push_of n ∈ q.

(** A handler keeps [notified]: of what is committed always, and of the view
    too when it returns. *)
Definition pushes {A} (m : M A) : Prop :=
  ∀ s, notified (committed s) (outbox s) → notified (session s) (outbox s) →
       notified (committed (m s).2) (outbox (m s).2)
       ∧ ((∃ a, (m s).1 = inr a) → notified (session (m s).2) (outbox (m s).2)).
(** * Properties *)

(** ** Sorting and paging *)

Section sorting.
Context {A : Type} (before : A → A → bool).

Lemma insert_by_Permutation x l : insert_by before x l ≡ₚ x :: l.
Proof.
  induction l as [|y l IH]; simpl; [done|].
  destruct (before y x); [|done].
  rewrite IH. apply Permutation_swap.
Qed.

Lemma sort_by_Permutation l : sort_by before l ≡ₚ l.
Proof.
  induction l as [|x l IH]; simpl; [done|].
  by rewrite insert_by_Permutation, IH.
Qed.

Lemma elem_of_sort_by x l : x ∈ sort_by before l ↔ x ∈ l.
Proof. by rewrite sort_by_Permutation. Qed.

(** [R x y]: [x] may stand in front of [y]. *)
Context (R : relation A) `{!Transitive R}.
Hypothesis before_R : ∀ x y, before x y = true → R x y.
Hypothesis not_before_R : ∀ x y, before y x = false → R x y.


End sorting.

(** Paging with a positive page size reaches every element. *)
Lemma paging_covers {A} (l : list A) (x : A) (limit : nat) :
  (0 < limit)%nat →
  (∃ skip, x ∈ take limit (drop skip l)) ↔ x ∈ l.
Proof.
  intros Hl. split.
  - intros [skip H]. apply elem_of_take in H as (i & H & _).
    rewrite lookup_drop in H. by eapply list_elem_of_lookup_2.
  - intros H. apply list_elem_of_lookup_1 in H as [i H].
    exists i. apply elem_of_take. exists 0%nat.
    rewrite lookup_drop, Nat.add_0_r. split; [done | lia].
Qed.

(** ** The follow graph as the queries see it *)

Lemma subq_following_spec d v x : x ∈ subq_following d v ↔ (v, x) ∈ follows d.
Proof.
  unfold subq_following. rewrite elem_of_map. split.
  - intros ([a b] & -> & H). apply elem_of_filter in H as [E H].
    simpl in *. by subst.
  - intros H. exists (v, x). split; [done|]. by apply elem_of_filter.
Qed.

(** ** Feed visibility *)

Lemma po_id_get_feed_posts d V skip limit :
  po_id <$> get_feed_posts d V skip limit
  = fst <$> take limit (drop skip
      (sort_by (λ a b : N * Post.t,
                  sql_desc_before (Post.created_at a.2) (Post.created_at b.2))
         (filter (λ r : N * Post.t, visibility_clause d V r.2)
                 (map_to_list (posts d))))).
Proof.
  unfold get_feed_posts. rewrite <- list_fmap_compose.
  apply list_fmap_ext. by intros _ [??] _.
Qed.

Lemma in_feed_iff d V limit pid p :
  posts d !! pid = Some p → (0 < limit)%nat →
  (∃ skip, pid ∈ po_id <$> get_feed_posts d V skip limit)
  ↔ visibility_clause d V p = true.
Proof.
  intros Hp Hl.
  transitivity (∃ skip, (pid, p) ∈ take limit (drop skip
      (sort_by (λ a b : N * Post.t,
                  sql_desc_before (Post.created_at a.2) (Post.created_at b.2))
         (filter (λ r : N * Post.t, visibility_clause d V r.2)
                 (map_to_list (posts d)))))).
  - split; intros [skip H]; exists skip; rewrite po_id_get_feed_posts in *.
    + apply list_elem_of_fmap in H as ([i q] & -> & H). simpl.
      assert ((i, q) ∈ map_to_list (posts d)) as Hq.
      { apply elem_of_take in H as (j & H & _). rewrite lookup_drop in H.
        apply list_elem_of_lookup_2 in H. rewrite elem_of_sort_by in H.
        by apply list_elem_of_filter in H as [_ ?]. }
      apply elem_of_map_to_list in Hq. simpl in Hp. by simplify_eq.
    + apply list_elem_of_fmap. by exists (pid, p).
  - rewrite paging_covers by done. rewrite elem_of_sort_by, list_elem_of_filter.
    rewrite elem_of_map_to_list. simpl. rewrite Is_true_true. naive_solver.
Qed.

(** C1.  A post enters the feed query of a viewer exactly by its tier:
    a public post for every viewer, the anonymous one included; a private
    post only for its author; a followers-only post for its author and for
    the viewers who follow the author.  "Enters the feed" is: some page of
    [get_feed_posts] (any positive page size) carries the post. *)
Theorem feed_visibility_by_tier (d : DB) (V : option N) (limit : nat)
    (pid : N) (p : Post.t) :
  posts d !! pid = Some p → (0 < limit)%nat →
  let X := Post.user_id p in
  let in_feed := ∃ skip, pid ∈ po_id <$> get_feed_posts d V skip limit in
  (Post.visibility p = "public" → in_feed)
  ∧ (Post.visibility p = "private" → (in_feed ↔ V = Some X))
  ∧ (Post.visibility p = "followers_only" →
       (in_feed ↔ V = Some X ∨ ∃ v, V = Some v ∧ (v, X) ∈ follows d)).
Proof.
  intros Hp Hl X in_feed. subst in_feed.
  rewrite (in_feed_iff d V limit pid p Hp Hl).
  unfold visibility_clause. subst X.
  split_and!; intros Hv; rewrite Hv; destruct V as [v|];
    rewrite ?orb_true_iff, ?andb_true_iff, ?orb_true_iff, ?bool_decide_eq_true,
            ?subq_following_spec;
    naive_solver.
Qed.

Lemma feed_visibility_by_tier_witness :
  (∃ skip, 12%N ∈ po_id <$> get_feed_posts sample_db (Some 1%N) skip 10)
  ↔ Some 1%N = Some 2%N ∨ ∃ v, Some 1%N = Some v ∧ (v, 2%N) ∈ follows sample_db.
Proof.
  refine (proj2 (proj2 (feed_visibility_by_tier sample_db (Some 1%N) 10 12%N
                          (sample_post 2 "followers_only" 5) _ _)) _).
  - vm_compute. reflexivity.
  - lia.
  - reflexivity.
Defined.

(** ** The unified feed merge *)

#[local] Instance feed_key_ge_trans : Transitive (λ x y : Z * FeedObj, y.1 ≤ x.1).
Proof. intros x y z ??. lia. Qed.






(** ** Running a handler *)

Lemma or0_id x : or0 x = x.
Proof. unfold or0. by case_decide. Qed.

Lemma close_open w : close_session (open_session w) = w.
Proof. by destruct w. Qed.

Lemma world_eta w : mkWorld (db w) (push_queue w) (broker_up w) = w.
Proof. by destruct w. Qed.

(** Symbolic execution: unfold the monad and the queries, then use what is
    known about the tables. *)
Ltac run_simpl :=
  unfold request, commit, scalar_one_or_none,
     get_current_user, get_current_user_optional, select_user, select_post,
     db_add_follow, db_add_follow_request, delete_follow, delete_follow_request,
     incr_followers_count, incr_following_count,
     decr_followers_count, decr_following_count,
     send_push_notification_delay, create_notification,
     _is_following, _has_pending_request,
     bind, ret, raise, query, execute, open_session, close_session, rollback;
  cbn.

Ltac run_step :=
  match goal with
  | H : ?l = _ |- context [?l] => rewrite H
  | H : ?x ∉ ?X |- context [bool_decide (?x ∈ ?X)] =>
      rewrite (bool_decide_eq_false_2 _ H)
  | H : ?x ∈ ?X |- context [bool_decide (?x ∈ ?X)] =>
      rewrite (bool_decide_eq_true_2 _ H)
  | |- context [decide (?x = ?x)] => destruct (decide (x = x)); [|done]
  | H : ?x ≠ ?y |- context [decide (?x = ?y)] =>
      destruct (decide (x = y)); [done|]
  | H : ?y ≠ ?x |- context [decide (?x = ?y)] =>
      destruct (decide (x = y)); [by subst|]
  end.

Ltac run := repeat (run_simpl; run_step); run_simpl; rewrite ?world_eta.

(** The same, splitting on what is not known. *)
Ltac case_inner :=
  first
    [ match goal with
      | |- context [@lookup _ _ _ _ ?k ?m] => destruct (m !! k) eqn:?
      end
    | match goal with
      | |- context [match ?x with _ => _ end] =>
          lazymatch x with
          | context [match _ with _ => _ end] => fail
          | _ => destruct x eqn:?
          end
      end ].

Ltac run_cases := repeat (run_simpl; first [run_step | case_inner]); run_simpl.

Section follow_runs.
Context (w : World) (A B : N) (ua : User.t).
Hypothesis HA : users (db w) !! A = Some ua.
Hypothesis HAr : User.is_restricted ua = false.





Lemma follow_user_private_run ub :
  users (db w) !! B = Some ub → User.is_private ub = true →
  A ≠ B → (A, B) ∉ follows (db w) → (A, B) ∉ follow_requests (db w) →
  broker_up w = true →
  request (follow_user B (Some A)) w
  = (inr [("follows", false); ("requested", true)],
     mkWorld
       (with_notifications
          (λ l, l ++ [Notification.mk B A "follow_request"
                        (shown_name ua +:+ " requested to follow you")
                        None None None false])
          (with_follow_requests (λ f, {[ (A, B) ]} ∪ f) (db w)))
       (push_queue w ++ [(B, "feedr", shown_name ua +:+ " requested to follow you")])
       true).
Proof. intros HB Hp Hne Hnf Hnr Hb. unfold follow_user. by run. Qed.


Lemma unfollow_user_absent_run :
  (A, B) ∉ follows (db w) →
  request (unfollow_user B (Some A)) w = (inr [("follows", false)], w).
Proof. intros Hnf. unfold unfollow_user. by run. Qed.

Lemma unfollow_user_present_run :
  (A, B) ∈ follows (db w) →
  request (unfollow_user B (Some A)) w
  = (inr [("follows", false)],
     mkWorld
       (with_users (alter decr_following A)
          (with_users (alter decr_followers B)
             (with_follows (λ f, f ∖ {[ (A, B) ]}) (db w))))
       (push_queue w) (broker_up w)).
Proof. intros Hf. unfold unfollow_user. by run. Qed.
Lemma remove_follower_present_run :
  (B, A) ∈ follows (db w) →
  request (remove_follower B (Some A)) w
  = (inr [("removed", true)],
     mkWorld
       (with_users (alter decr_followers A)
          (with_users (alter decr_following B)
             (with_follows (λ f, f ∖ {[ (B, A) ]}) (db w))))
       (push_queue w) (broker_up w)).
Proof. intros Hf. unfold remove_follower. by run. Qed.
End follow_runs.

Section like_runs.
Context (w : World) (u pid : N) (ua : User.t) (p : Post.t).
Hypothesis Hu : users (db w) !! u = Some ua.
Hypothesis Hur : User.is_restricted ua = false.
Hypothesis Hp : posts (db w) !! pid = Some p.




Lemma unlike_post_present_run l :
  like_rows (db w) pid u = [l] →
  let r := request (unlike_post pid (Some u)) w in
  (∃ resp, r.1 = inr resp ∧ PostResponse.is_liked resp = false)
  ∧ users (db r.2) = users (db w)
  ∧ posts (db r.2)
    = alter decr_likes
            pid (posts (db w))
  ∧ likes (db r.2) = filter (λ x, x ≠ l) (likes (db w))
  ∧ broker_up r.2 = broker_up w.
Proof.
  intros Hrows r. subst r. unfold like_rows in Hrows. unfold unlike_post.
  run_cases; eauto 10.
Qed.

Lemma like_post_broker_down_run :
  like_rows (db w) pid u = [] → Post.user_id p ≠ u → broker_up w = false →
  request (like_post pid (Some u)) w = (inl OperationalError, w).
Proof.
  unfold like_rows. intros Hrows Hne Hb. unfold like_post. run.
  by rewrite <- Hb, world_eta.
Qed.
End like_runs.

Lemma like_rows_after_delete (l : Like.t) (rows : list Like.t) post user :
  filter (like_matches post user) rows = [l] →
  filter (like_matches post user) (filter (λ x, x ≠ l) rows) = [].
Proof.
  intros H. apply elem_of_nil_inv. intros y Hy.
  apply list_elem_of_filter in Hy as [Hm Hy].
  apply list_elem_of_filter in Hy as [Hne Hy].
  assert (y ∈ filter (like_matches post user) rows) as Hin
    by by apply list_elem_of_filter.
  rewrite H in Hin. by apply list_elem_of_singleton in Hin.
Qed.

Section accept_runs.
Context (w : World) (A B : N) (ub : User.t).
Hypothesis HB : users (db w) !! B = Some ub.
Hypothesis HBr : User.is_restricted ub = false.
Hypothesis Hne : A ≠ B.



End accept_runs.




(** ** Properties of the tables that every handler keeps *)

Section preservation.
Context (P : DB → Prop).

Lemma preserves_ret {A} (a : A) : preserves P (ret a).
Proof. by intros s ??. Qed.

Lemma preserves_raise {A} (e : exn) : preserves P (raise (A:=A) e).
Proof. by intros s ??. Qed.

Lemma preserves_query {A} (f : DB → A) : preserves P (query f).
Proof. by intros s ??. Qed.

Lemma preserves_bind {A B} (m : M A) (k : A → M B) :
  preserves P m → (∀ a, preserves P (k a)) → preserves P (bind m k).
Proof.
  intros Hm Hk s Hc Hs. unfold bind.
  destruct (Hm s Hc Hs) as [Hc' Hs']. destruct (m s) as [[e|a] s']; [done|].
  by apply Hk.
Qed.

Lemma preserves_execute (f : DB → DB) :
  (∀ d, P d → P (f d)) → preserves P (execute f).
Proof. intros Hf s ??. cbn. auto. Qed.

Lemma preserves_commit : preserves P commit.
Proof. intros s ??. unfold commit. by destruct (flush_conflict s). Qed.

Lemma preserves_scalar_one_or_none {A} (rows : list A) :
  preserves P (scalar_one_or_none rows).
Proof. intros s ??. by destruct rows as [|? [|??]]. Qed.

Lemma preserves_send_push user_id title body :
  preserves P (send_push_notification_delay user_id title body).
Proof. intros s ??. unfold send_push_notification_delay. by destruct (broker s). Qed.

Lemma preserves_db_add_follow_request a b :
  (∀ d, P d → P (with_follow_requests (λ f, {[ (a, b) ]} ∪ f) d)) →
  preserves P (db_add_follow_request a b).
Proof.
  intros Hf s ??. unfold db_add_follow_request. case_bool_decide; cbn; auto.
Qed.

Lemma preserves_db_add_follow a b :
  (∀ d, P d → P (with_follows (λ f, {[ (a, b) ]} ∪ f) d)) →
  preserves P (db_add_follow a b).
Proof.
  intros Hf s ??. unfold db_add_follow. case_bool_decide; cbn; auto.
Qed.

(** The handler's result is what [request] leaves in the world. *)
Lemma request_preserves {A} (handler : M A) w :
  preserves P handler → P (db w) → P (db (request handler w).2).
Proof.
  intros Hh Hw. unfold request.
  destruct (Hh (open_session w) Hw Hw) as [Hc Hs].
  destruct (handler (open_session w)) as [[e|a] s]; cbn in *; [done|].
  unfold commit. by destruct (flush_conflict s).
Qed.

Hypothesis P_follows_add : ∀ e d, P d → P (with_follows (λ f, {[ e ]} ∪ f) d).
Hypothesis P_follows_del : ∀ e d, P d → P (with_follows (λ f, f ∖ {[ e ]}) d).
Hypothesis P_requests : ∀ g d, P d → P (with_follow_requests g d).
Hypothesis P_likes : ∀ g d, P d → P (with_likes g d).
Hypothesis P_incr_followers : ∀ i d, P d →
  P (with_users (alter incr_followers i) d).
Hypothesis P_incr_following : ∀ i d, P d →
  P (with_users (alter incr_following i) d).
Hypothesis P_decr_followers : ∀ i d, P d →
  P (with_users (alter decr_followers i) d).
Hypothesis P_decr_following : ∀ i d, P d →
  P (with_users (alter decr_following i) d).
Hypothesis P_profile : ∀ data i d, P d →
  P (with_users (alter (apply_update data) i) d).
Hypothesis P_incr_likes : ∀ i d, P d →
  P (with_posts (alter incr_likes i) d).
Hypothesis P_decr_likes : ∀ i d, P d →
  P (with_posts (alter decr_likes i) d).
Hypothesis P_notify : ∀ n d,
  Notification.user_id n ≠ Notification.actor_id n → P d →
  P (with_notifications (λ l, l ++ [n]) d).

Ltac preserves_step :=
  first
    [ apply preserves_ret | apply preserves_raise | apply preserves_query
    | apply preserves_commit | apply preserves_scalar_one_or_none
    | apply preserves_send_push
    | apply preserves_db_add_follow; intros; by eauto
    | apply preserves_db_add_follow_request; intros; by eauto
    | apply preserves_execute; intros; by eauto
    | apply preserves_bind; [|intros ?]
    | match goal with
      | |- preserves _ (match ?x with _ => _ end) => destruct x
      end ].

Ltac preserves_go := repeat preserves_step.

Lemma preserves_get_current_user creds : preserves P (get_current_user creds).
Proof.
  unfold get_current_user, get_current_user_optional, select_user. preserves_go.
Qed.

Lemma preserves_create_notification u a ty tx tp tc tm :
  preserves P (create_notification u a ty tx tp tc tm).
Proof.
  unfold create_notification. destruct (decide (u = a)); preserves_go.
Qed.

Lemma preserves_follow_user user_id creds : preserves P (follow_user user_id creds).
Proof.
  unfold follow_user, _is_following, _has_pending_request, select_user,
    incr_followers_count, incr_following_count.
  repeat first [ apply preserves_get_current_user
               | apply preserves_create_notification | preserves_step ].
Qed.

Lemma preserves_unfollow_user user_id creds :
  preserves P (unfollow_user user_id creds).
Proof.
  unfold unfollow_user, delete_follow, decr_followers_count, decr_following_count.
  repeat first [ apply preserves_get_current_user | preserves_step ].
Qed.

Lemma preserves_remove_follower user_id creds :
  preserves P (remove_follower user_id creds).
Proof.
  unfold remove_follower, delete_follow, decr_followers_count, decr_following_count.
  repeat first [ apply preserves_get_current_user | preserves_step ].
Qed.

Lemma preserves_accept_follow_request requester_id creds :
  preserves P (accept_follow_request requester_id creds).
Proof.
  unfold accept_follow_request, _has_pending_request, select_user,
    incr_followers_count, incr_following_count.
  repeat first [ apply preserves_get_current_user
               | apply preserves_create_notification | preserves_step ].
Qed.

Lemma preserves_reject_follow_request requester_id creds :
  preserves P (reject_follow_request requester_id creds).
Proof.
  unfold reject_follow_request, delete_follow_request.
  repeat first [ apply preserves_get_current_user | preserves_step ].
Qed.

Lemma preserves_cancel_follow_request user_id creds :
  preserves P (cancel_follow_request user_id creds).
Proof.
  unfold cancel_follow_request, delete_follow_request.
  repeat first [ apply preserves_get_current_user | preserves_step ].
Qed.

Lemma preserves_like_post post_id creds : preserves P (like_post post_id creds).
Proof.
  unfold like_post, select_post.
  repeat first [ apply preserves_get_current_user
               | apply preserves_create_notification | preserves_step ].
Qed.

Lemma preserves_unlike_post post_id creds : preserves P (unlike_post post_id creds).
Proof.
  unfold unlike_post, select_post.
  repeat first [ apply preserves_get_current_user | preserves_step ].
Qed.

Lemma preserves_update_me data creds : preserves P (update_me data creds).
Proof.
  unfold update_me, select_user.
  repeat first [ apply preserves_get_current_user | preserves_step ].
Qed.

Lemma perform_preserves a w : P (db w) → P (db (perform a w)).
Proof.
  intros Hw. destruct a; cbn; [apply request_preserves; [|done]..|done].
  - apply preserves_follow_user.
  - apply preserves_unfollow_user.
  - apply preserves_remove_follower.
  - apply preserves_accept_follow_request.
  - apply preserves_reject_follow_request.
  - apply preserves_cancel_follow_request.
  - apply preserves_like_post.
  - apply preserves_unlike_post.
  - apply preserves_update_me.
Qed.

Lemma run_preserves l w : P (db w) → P (db (run l w)).
Proof.
  revert w. induction l as [|a l IH]; intros w Hw; cbn; [done|].
  apply IH. by apply perform_preserves.
Qed.
End preservation.

(** ** Counters stay non-negative *)

Lemma map_Forall_alter {V} (Q : V → Prop) (f : V → V) (i : N) (m : gmap N V) :
  (∀ x, Q x → Q (f x)) → map_Forall (λ _, Q) m → map_Forall (λ _, Q) (alter f i m).
Proof.
  intros Hf Hm j y Hy. apply lookup_alter_Some in Hy as [(-> & x & Hx & ->)|[_ Hy]].
  - apply Hf. by eapply (Hm j).
  - by eapply (Hm j).
Qed.

Lemma counters_nonneg_users (f : User.t → User.t) i d :
  (∀ u, 0 ≤ User.followers_count u ∧ 0 ≤ User.following_count u →
        0 ≤ User.followers_count (f u) ∧ 0 ≤ User.following_count (f u)) →
  counters_nonneg d → counters_nonneg (with_users (alter f i) d).
Proof.
  intros Hf [Hu Hp]. split; cbn; [|exact Hp].
  by apply (map_Forall_alter
              (λ u, 0 ≤ User.followers_count u ∧ 0 ≤ User.following_count u)).
Qed.

Lemma counters_nonneg_posts (f : Post.t → Post.t) i d :
  (∀ p, 0 ≤ Post.likes_count p → 0 ≤ Post.likes_count (f p)) →
  counters_nonneg d → counters_nonneg (with_posts (alter f i) d).
Proof.
  intros Hf [Hu Hp]. split; cbn; [exact Hu|].
  by apply (map_Forall_alter (λ p, 0 ≤ Post.likes_count p)).
Qed.

Lemma counters_nonneg_run l w :
  counters_nonneg (db w) → counters_nonneg (db (run l w)).
Proof.
  apply run_preserves; try done.
  - intros i d. apply counters_nonneg_users. intros u.
    unfold incr_followers. cbn. rewrite or0_id. lia.
  - intros i d. apply counters_nonneg_users. intros u.
    unfold incr_following. cbn. rewrite or0_id. lia.
  - intros i d. apply counters_nonneg_users. intros u.
    unfold decr_followers. case_bool_decide; cbn; lia.
  - intros i d. apply counters_nonneg_users. intros u.
    unfold decr_following. case_bool_decide; cbn; lia.
  - intros data i d. by apply counters_nonneg_users.
  - intros i d. apply counters_nonneg_posts. intros p.
    unfold incr_likes. cbn. rewrite or0_id. lia.
  - intros i d. apply counters_nonneg_posts. intros p.
    unfold decr_likes. cbn. lia.
Qed.

(** Decrements clamp at zero and touch one counter. *)
Lemma decr_followers_spec u :
  0 ≤ User.followers_count u →
  User.followers_count (decr_followers u) = 0 `max` (User.followers_count u - 1)
  ∧ User.following_count (decr_followers u) = User.following_count u.
Proof. intros H. unfold decr_followers. case_bool_decide; cbn; lia. Qed.

Lemma decr_following_spec u :
  0 ≤ User.following_count u →
  User.following_count (decr_following u) = 0 `max` (User.following_count u - 1)
  ∧ User.followers_count (decr_following u) = User.followers_count u.
Proof. intros H. unfold decr_following. case_bool_decide; cbn; lia. Qed.

Lemma decr_both_counts (m : gmap N User.t) X Y :
  map_Forall (λ _ u, 0 ≤ User.followers_count u ∧ 0 ≤ User.following_count u) m →
  let clamp := λ c, 0 `max` (c - 1) in
  (User.followers_count <$> alter decr_following X (alter decr_followers Y m) !! Y
   = clamp <$> (User.followers_count <$> m !! Y))
  ∧ (User.following_count <$> alter decr_following X (alter decr_followers Y m) !! X
     = clamp <$> (User.following_count <$> m !! X))
  ∧ (User.followers_count <$> alter decr_followers Y (alter decr_following X m) !! Y
     = clamp <$> (User.followers_count <$> m !! Y))
  ∧ (User.following_count <$> alter decr_followers Y (alter decr_following X m) !! X
     = clamp <$> (User.following_count <$> m !! X)).
Proof.
  intros Hm clamp. subst clamp.
  split_and!; rewrite !lookup_alter; repeat case_decide; subst; try done.
  all: match goal with
       | |- context [@lookup _ _ _ _ ?k ?mm] =>
           destruct (mm !! k) as [u|] eqn:E; cbn; [|done]
       end.
  all: destruct (Hm _ _ E) as [H1 H2]; f_equal.
  all: destruct (decr_followers_spec u H1) as [E1 E2].
  all: destruct (decr_following_spec u H2) as [E3 E4].
  all: try lia.
  - destruct (decr_following_spec (decr_followers u)) as [_ ->]; lia.
  - destruct (decr_following_spec (decr_followers u)) as [-> _]; lia.
  - destruct (decr_followers_spec (decr_following u)) as [-> _]; lia.
  - destruct (decr_followers_spec (decr_following u)) as [_ ->]; lia.
Qed.

(** C4.  From a state whose counters are non-negative, no sequence of
    requests (follow, unfollow, remove-follower, accept, reject, cancel,
    like, unlike, profile updates, in any order and by any callers) makes
    [followers_count], [following_count] or [likes_count] negative; an
    unfollow, or a removal of a follower, that deletes an edge lowers each
    of the two counters by one, clamped at zero, and so does an unlike that
    deletes a Like row; an unfollow with no edge answers
    [{"follows": false}] and changes nothing. *)
Theorem counters_never_negative (w : World) :
  counters_nonneg (db w) →
  let clamp := λ c, 0 `max` (c - 1) in
  (∀ actions, counters_nonneg (db (run actions w)))
  ∧ (∀ A B ua, users (db w) !! A = Some ua → User.is_restricted ua = false →
       (A, B) ∈ follows (db w) →
       let w' := (request (unfollow_user B (Some A)) w).2 in
       followers_count_of (db w') B = clamp <$> followers_count_of (db w) B
       ∧ following_count_of (db w') A = clamp <$> following_count_of (db w) A)
  ∧ (∀ A X ua, users (db w) !! A = Some ua → User.is_restricted ua = false →
       (X, A) ∈ follows (db w) →
       let w' := (request (remove_follower X (Some A)) w).2 in
       following_count_of (db w') X = clamp <$> following_count_of (db w) X
       ∧ followers_count_of (db w') A = clamp <$> followers_count_of (db w) A)
  ∧ (∀ u pid ua p l, users (db w) !! u = Some ua → User.is_restricted ua = false →
       posts (db w) !! pid = Some p → like_rows (db w) pid u = [l] →
       likes_count_of (db (request (unlike_post pid (Some u)) w).2) pid
       = Some (clamp (Post.likes_count p)))
  ∧ (∀ A B ua, users (db w) !! A = Some ua → User.is_restricted ua = false →
       (A, B) ∉ follows (db w) →
       request (unfollow_user B (Some A)) w = (inr [("follows", false)], w)).
Proof.
  intros Hw clamp. subst clamp. split_and!.
  - intros actions. by apply counters_nonneg_run.
  - intros A B ua HA HAr Hf w'. subst w'.
    rewrite (unfollow_user_present_run w A B ua HA HAr Hf). cbn.
    unfold followers_count_of, following_count_of. cbn.
    destruct (decr_both_counts (users (db w)) A B (proj1 Hw)) as (H1 & H2 & _).
    by rewrite H1, H2.
  - intros A X ua HA HAr Hf w'. subst w'.
    rewrite (remove_follower_present_run w A X ua HA HAr Hf). cbn.
    unfold followers_count_of, following_count_of. cbn.
    destruct (decr_both_counts (users (db w)) X A (proj1 Hw)) as (_ & _ & H3 & H4).
    by rewrite H3, H4.
  - intros u pid ua p l Hu Hur Hp Hl.
    destruct (unlike_post_present_run w u pid ua p Hu Hur Hp l Hl)
      as (_ & _ & Ep & _).
    unfold likes_count_of. rewrite Ep, lookup_alter_eq, Hp. cbn.
    by rewrite or0_id.
  - intros A B ua HA HAr Hnf. by apply (unfollow_user_absent_run w A B ua).
Qed.

Lemma counters_never_negative_witness :
  counters_nonneg (db (run [Unfollow (Some 1%N) 2; UnlikePost (Some 2%N) 10;
                            RemoveFollower (Some 2%N) 1] sample_world)).
Proof.
  refine (proj1 (counters_never_negative sample_world _) _).
  apply (bool_decide_unpack _). vm_compute. exact I.
Defined.

(** ** Following a public profile *)



(** ** Like and unlike *)

Section like_parity.
Context (u pid : N) (ua : User.t) (c0 : Z).
Hypothesis Hur : User.is_restricted ua = false.
Hypothesis Hc0 : 0 ≤ c0.


End like_parity.





(** ** No self-notification *)

Lemma run_only_adds_foreign l w :
  only_adds_foreign (notifications (db w)) (db (run l w)).
Proof.
  apply (run_preserves (only_adds_foreign (notifications (db w)))); try done.
  - intros n d Hn (new & E & Hnew). exists (new ++ [n]). cbn. rewrite E.
    split; [by rewrite app_assoc|]. apply Forall_app. by repeat constructor.
  - exists []. by rewrite app_nil_r.
Qed.

Lemma like_own_post_silent w u pid p :
  posts (db w) !! pid = Some p → Post.user_id p = u →
  notifications (db (request (like_post pid (Some u)) w).2) = notifications (db w)
  ∧ push_queue (request (like_post pid (Some u)) w).2 = push_queue w.
Proof.
  intros Hp Hu. unfold like_post. run_cases; try done.
  all: try (subst; done).
Qed.

(** C7.  [create_notification] with recipient equal to actor adds no row and
    dispatches nothing; whatever requests run, every notification row they
    add has a recipient different from its actor; liking one's own post
    leaves the notifications and the push queue as they were. *)
Theorem no_self_notification_ever :
  (∀ u ty tx tp tc tm s,
     create_notification u u ty tx tp tc tm s = (inr None, s))
  ∧ (∀ w actions, only_adds_foreign (notifications (db w)) (db (run actions w)))
  ∧ (∀ w actions, no_self_notification (db w) →
                  no_self_notification (db (run actions w)))
  ∧ (∀ w u pid p,
       posts (db w) !! pid = Some p → Post.user_id p = u →
       notifications (db (request (like_post pid (Some u)) w).2)
         = notifications (db w)
       ∧ push_queue (request (like_post pid (Some u)) w).2 = push_queue w).
Proof.
  split_and!.
  - intros. unfold create_notification. by rewrite decide_True.
  - intros. apply run_only_adds_foreign.
  - intros w actions Hw. unfold no_self_notification.
    destruct (run_only_adds_foreign actions w) as (new & -> & Hnew).
    by apply Forall_app.
  - apply like_own_post_silent.
Qed.

Lemma no_self_notification_ever_witness :
  notifications (db (request (like_post 10 (Some 1%N)) sample_world).2) = []
  ∧ push_queue (request (like_post 10 (Some 1%N)) sample_world).2 = [].
Proof.
  refine (proj2 (proj2 (proj2 no_self_notification_ever)) sample_world 1%N 10%N
            (sample_post 1 "public" 10) _ _).
  - vm_compute. reflexivity.
  - reflexivity.
Defined.

(** ** Follow requests to a private profile *)


Lemma profile_private_users d d' B :
  users d' = users d → profile_private d B → profile_private d' B.
Proof. unfold profile_private. by intros ->. Qed.









(** ** Self-referential and repeated actions *)




(** ** Push enqueue failures *)

(** C9 fails on the code: [create_notification] calls
    [send_push_notification.delay] unguarded, so with the broker down a like
    of another user's post (and a follow) raises, and the rollback of
    [get_db] discards the Like row (the Follow edge); with the broker up the
    same requests succeed. *)
Theorem push_failure_fails_the_request :
  request (like_post 10 (Some 2%N)) sample_world_broker_down
    = (inl OperationalError, sample_world_broker_down)
  ∧ request (follow_user 2 (Some 1%N)) sample_world_broker_down
    = (inl OperationalError, sample_world_broker_down)
  ∧ likes (db (request (like_post 10 (Some 2%N)) sample_world).2)
    = [Like.mk 2 (Some 10%N) None None]
  ∧ follows (db (request (follow_user 2 (Some 1%N)) sample_world).2)
    = {[ (1%N, 2%N) ]}.
Proof. split_and!; vm_compute; reflexivity. Qed.

(** ** Reading one post *)





(** * Further properties *)

(** ** Requests of callers who may not act *)




(** ** The follow counters are the degrees of the follow graph *)

Lemma size_filter_add (P : N * N → Prop) `{!∀ e, Decision (P e)}
    (e : N * N) (F : gset (N * N)) :
  e ∉ F →
  size (filter P ({[ e ]} ∪ F))
  = ((if decide (P e) then 1 else 0) + size (filter P F))%nat.
Proof.
  intros He. rewrite filter_union_L, size_union.
  - destruct (decide (P e)) as [HP|HP].
    + rewrite (filter_singleton_True_L (C:=gset (N * N)) P e HP).
      by rewrite size_singleton.
    + rewrite (filter_singleton_False_L (C:=gset (N * N)) P e HP).
      by rewrite size_empty.
  - intros x [_ Hx]%elem_of_filter [_ Hx']%elem_of_filter.
    apply elem_of_singleton in Hx. by subst.
  - apply _.
Qed.

Lemma size_filter_del (P : N * N → Prop) `{!∀ e, Decision (P e)}
    (e : N * N) (F : gset (N * N)) :
  e ∈ F →
  size (filter P F)
  = ((if decide (P e) then 1 else 0) + size (filter P (F ∖ {[ e ]})))%nat.
Proof.
  intros He. rewrite <- size_filter_add by set_solver.
  f_equal. f_equal. apply set_eq. intros x.
  rewrite elem_of_union, elem_of_singleton, elem_of_difference, elem_of_singleton.
  destruct (decide (x = e)); naive_solver.
Qed.

Lemma lookup_alter_at {V} (f : V → V) (m : gmap N V) i j :
  alter f i m !! j = if decide (i = j) then f <$> m !! j else m !! j.
Proof.
  case_decide; [subst; apply lookup_alter_eq | by apply lookup_alter_ne].
Qed.

Lemma degrees_match_add m F A B :
  degrees_match m F → (A, B) ∉ F →
  degrees_match (alter incr_following A (alter incr_followers B m))
                ({[ (A, B) ]} ∪ F).
Proof.
  intros Hc He u r Hr.
  rewrite (size_filter_add (λ e : N * N, e.2 = u) (A, B) F He).
  rewrite (size_filter_add (λ e : N * N, e.1 = u) (A, B) F He). cbn.
  rewrite !lookup_alter_at in Hr.
  destruct (m !! u) as [r0|] eqn:E; [|repeat case_decide; by cbn in Hr].
  destruct (Hc u r0 E) as [H1 H2].
  repeat case_decide; cbn in Hr; injection Hr as <-;
    unfold incr_following, incr_followers; cbn; rewrite ?or0_id; lia.
Qed.

Lemma degrees_match_del m F A B :
  degrees_match m F → (A, B) ∈ F →
  degrees_match (alter decr_following A (alter decr_followers B m))
                (F ∖ {[ (A, B) ]})
  ∧ degrees_match (alter decr_followers B (alter decr_following A m))
                  (F ∖ {[ (A, B) ]}).
Proof.
  intros Hc He. split; intros u r Hr.
  all: rewrite !lookup_alter_at in Hr.
  all: destruct (m !! u) as [r0|] eqn:E; [|repeat case_decide; by cbn in Hr].
  all: destruct (Hc u r0 E) as [H1 H2].
  all: rewrite (size_filter_del (λ e : N * N, e.2 = u) (A, B) F He) in H1.
  all: rewrite (size_filter_del (λ e : N * N, e.1 = u) (A, B) F He) in H2.
  all: destruct r0; cbn in H1, H2.
  all: repeat case_decide; cbn in Hr; injection Hr as <-;
         unfold decr_following, decr_followers; cbn;
         repeat (case_bool_decide; cbn in *); lia.
Qed.
(** ** Invariants that relate two tables *)

Section keeps.
Context (I : DB → Prop).

Lemma keeps_ret {A} (a : A) : keeps I (ret a).
Proof. by intros s ?. Qed.

Lemma keeps_raise {A} (e : exn) : keeps I (raise (A:=A) e).
Proof. by intros s ?. Qed.

Lemma keeps_query {A} (f : DB → A) : keeps I (query f).
Proof. by intros s ?. Qed.

Lemma keeps_bind {A B} (m : M A) (k : A → M B) :
  keeps I m → (∀ a, keeps I (k a)) → keeps I (bind m k).
Proof.
  intros Hm Hk s Hs. unfold bind. specialize (Hm s Hs).
  destruct (m s) as [[e|a] s']; [done|]. by apply Hk.
Qed.

Lemma keeps_execute (f : DB → DB) :
  (∀ d, I d → I (f d)) → keeps I (execute f).
Proof. intros Hf s [Hc Hs]. split; cbn; auto. Qed.

Lemma keeps_commit : keeps I commit.
Proof.
  intros s Hs. unfold commit.
  destruct (flush_conflict s) eqn:E; [exact Hs|].
  destruct Hs as [Hc Hs]. split; cbn; auto.
Qed.

Lemma keeps_scalar_one_or_none {A} (rows : list A) :
  keeps I (scalar_one_or_none rows).
Proof. intros s Hs. by destruct rows as [|? [|??]]; cbn. Qed.

Lemma keeps_send_push user_id title body :
  keeps I (send_push_notification_delay user_id title body).
Proof.
  intros s Hs. unfold send_push_notification_delay.
  by destruct (broker s); cbn.
Qed.

Lemma keeps_db_add_follow_request a b :
  (∀ d, I d → I (with_follow_requests (λ f, {[ (a, b) ]} ∪ f) d)) →
  keeps I (db_add_follow_request a b).
Proof.
  intros Hf s [Hc Hs]. unfold db_add_follow_request.
  case_bool_decide; split; cbn; auto. done.
Qed.

(** What [request] leaves in the world. *)
Lemma request_keeps {A} (handler : M A) w :
  keeps I handler → I (db w) → I (db (request handler w).2).
Proof.
  intros Hh Hw. unfold request.
  destruct (Hh (open_session w)) as [Hc Hs]; [by split|].
  destruct (handler (open_session w)) as [[e|a] s]; cbn in *; [done|].
  unfold commit. destruct (flush_conflict s); cbn; auto.
Qed.

Hypothesis I_requests : ∀ g d, I d → I (with_follow_requests g d).
Hypothesis I_notify : ∀ g d, I d → I (with_notifications g d).
Hypothesis I_profile : ∀ data i d, I d →
  I (with_users (alter (apply_update data) i) d).

(** The writes that come in groups: a new edge with its two increments, a
    deleted edge with its two decrements, a new Like row with its increment
    and a deleted one with its decrement. *)
Hypothesis I_follow : ∀ a b {A} (k : M A), keeps I k →
  keeps I (db_add_follow a b ;;; incr_followers_count b ;;;
           incr_following_count a ;;; k).
Hypothesis I_unfollow : ∀ a b {A} (k : M A), keeps I k →
  keeps I (rowcount <- delete_follow a b ;;
           (if (0 <? rowcount)%nat
            then decr_followers_count b ;;; decr_following_count a ;;; commit
            else ret tt) ;;; k).
Hypothesis I_remove : ∀ a b {A} (k : M A), keeps I k →
  keeps I (rowcount <- delete_follow a b ;;
           (if (0 <? rowcount)%nat
            then decr_following_count a ;;; decr_followers_count b ;;; commit
            else ret tt) ;;; k).
Hypothesis I_like : ∀ u pid {A} (k : M A), keeps I k →
  keeps I (execute (with_likes (λ l, l ++ [Like.mk u (Some pid) None None])) ;;;
           execute (with_posts (alter incr_likes pid)) ;;; k).
Hypothesis I_unlike : ∀ u pid {A} (k : M A), keeps I k →
  keeps I (rows <- query (λ d, filter (like_matches pid u) (likes d)) ;;
           like <- scalar_one_or_none rows ;;
           (match like with
            | Some like =>
                execute (with_likes (filter (λ l, l ≠ like))) ;;;
                execute (with_posts (alter decr_likes pid))
            | None => ret tt
            end) ;;; k).

Ltac keeps_step :=
  first
    [ apply keeps_ret | apply keeps_raise
    | apply I_follow | apply I_unfollow | apply I_remove
    | apply I_like | apply I_unlike
    | apply keeps_query
    | apply keeps_commit | apply keeps_scalar_one_or_none
    | apply keeps_send_push
    | apply keeps_db_add_follow_request; intros; by eauto
    | apply keeps_execute; intros; by eauto
    | apply keeps_bind; [|intros ?]
    | match goal with
      | |- keeps _ (match ?x with _ => _ end) => destruct x
      end ].

Lemma keeps_get_current_user creds : keeps I (get_current_user creds).
Proof.
  unfold get_current_user, get_current_user_optional, select_user.
  repeat keeps_step.
Qed.

Lemma keeps_create_notification u a ty tx tp tc tm :
  keeps I (create_notification u a ty tx tp tc tm).
Proof.
  unfold create_notification. destruct (decide (u = a)); repeat keeps_step.
Qed.

Ltac keeps_go :=
  repeat first [ apply keeps_get_current_user
               | apply keeps_create_notification | keeps_step ].

Lemma keeps_follow_user user_id creds : keeps I (follow_user user_id creds).
Proof.
  unfold follow_user, _is_following, _has_pending_request, select_user. keeps_go.
Qed.

Lemma keeps_unfollow_user user_id creds : keeps I (unfollow_user user_id creds).
Proof. unfold unfollow_user. keeps_go. Qed.

Lemma keeps_remove_follower user_id creds :
  keeps I (remove_follower user_id creds).
Proof. unfold remove_follower. keeps_go. Qed.

Lemma keeps_accept_follow_request requester_id creds :
  keeps I (accept_follow_request requester_id creds).
Proof. unfold accept_follow_request, select_user. keeps_go. Qed.

Lemma keeps_reject_follow_request requester_id creds :
  keeps I (reject_follow_request requester_id creds).
Proof. unfold reject_follow_request, delete_follow_request. keeps_go. Qed.

Lemma keeps_cancel_follow_request user_id creds :
  keeps I (cancel_follow_request user_id creds).
Proof. unfold cancel_follow_request, delete_follow_request. keeps_go. Qed.

Lemma keeps_like_post post_id creds : keeps I (like_post post_id creds).
Proof. unfold like_post, select_post. keeps_go. Qed.

Lemma keeps_unlike_post post_id creds : keeps I (unlike_post post_id creds).
Proof. unfold unlike_post, select_post. keeps_go. Qed.

Lemma keeps_update_me data creds : keeps I (update_me data creds).
Proof. unfold update_me, select_user. keeps_go. Qed.

Lemma perform_keeps a w : I (db w) → I (db (perform a w)).
Proof.
  intros Hw. destruct a; cbn; [apply request_keeps; [|done]..|done].
  - apply keeps_follow_user.
  - apply keeps_unfollow_user.
  - apply keeps_remove_follower.
  - apply keeps_accept_follow_request.
  - apply keeps_reject_follow_request.
  - apply keeps_cancel_follow_request.
  - apply keeps_like_post.
  - apply keeps_unlike_post.
  - apply keeps_update_me.
Qed.

Lemma run_keeps l w : I (db w) → I (db (run l w)).
Proof.
  revert w. induction l as [|a l IH]; intros w Hw; cbn; [done|].
  apply IH. by apply perform_keeps.
Qed.
End keeps.
(** ** The follow counters are the degrees of the follow graph *)

Lemma counters_consistent_follow_block a b {A} (k : M A) :
  keeps counters_consistent k →
  keeps counters_consistent
    (db_add_follow a b ;;; incr_followers_count b ;;;
     incr_following_count a ;;; k).
Proof.
  intros Hk s [Hc Hs].
  unfold bind, db_add_follow, incr_followers_count, incr_following_count, execute.
  case_bool_decide as He; cbn; apply Hk; split; cbn; try done.
  intros Hf. specialize (Hs Hf). by apply degrees_match_add.
Qed.

Lemma counters_consistent_unfollow_block a b {A} (k : M A) :
  keeps counters_consistent k →
  keeps counters_consistent
    (rowcount <- delete_follow a b ;;
     (if (0 <? rowcount)%nat
      then decr_followers_count b ;;; decr_following_count a ;;; commit
      else ret tt) ;;; k).
Proof.
  intros Hk s [Hc Hs].
  unfold bind, delete_follow, decr_followers_count, decr_following_count,
    execute, query, commit, ret.
  cbn. case_bool_decide as He; cbn; [|by apply Hk].
  destruct (flush_conflict s) eqn:Hf; cbn; [by split|].
  specialize (Hs eq_refl). apply Hk. assert (counters_consistent
    (with_users (alter decr_following a)
       (with_users (alter decr_followers b)
          (with_follows (λ f, f ∖ {[ (a, b) ]}) (session s))))).
  { apply (degrees_match_del (users (session s)) (follows (session s)) a b);
      auto. }
  by split.
Qed.

Lemma counters_consistent_remove_block a b {A} (k : M A) :
  keeps counters_consistent k →
  keeps counters_consistent
    (rowcount <- delete_follow a b ;;
     (if (0 <? rowcount)%nat
      then decr_following_count a ;;; decr_followers_count b ;;; commit
      else ret tt) ;;; k).
Proof.
  intros Hk s [Hc Hs].
  unfold bind, delete_follow, decr_followers_count, decr_following_count,
    execute, query, commit, ret.
  cbn. case_bool_decide as He; cbn; [|by apply Hk].
  destruct (flush_conflict s) eqn:Hf; cbn; [by split|].
  specialize (Hs eq_refl). apply Hk. assert (counters_consistent
    (with_users (alter decr_followers b)
       (with_users (alter decr_following a)
          (with_follows (λ f, f ∖ {[ (a, b) ]}) (session s))))).
  { apply (degrees_match_del (users (session s)) (follows (session s)) a b);
      auto. }
  by split.
Qed.

Lemma degrees_match_profile data i m F :
  degrees_match m F → degrees_match (alter (apply_update data) i m) F.
Proof.
  intros Hm u r Hr.
  apply lookup_alter_Some in Hr as [(-> & x & Hx & ->)|[_ Hr]]; [|by eapply Hm].
  exact (Hm _ _ Hx).
Qed.

Lemma counters_consistent_run l w :
  counters_consistent (db w) → counters_consistent (db (run l w)).
Proof.
  apply run_keeps; try done.
  - intros data i d. apply degrees_match_profile.
  - intros. by apply counters_consistent_follow_block.
  - intros. by apply counters_consistent_unfollow_block.
  - intros. by apply counters_consistent_remove_block.
  - intros u pid A k Hk. repeat (apply keeps_bind; [|intros ?]); try done.
    all: by apply keeps_execute.
  - intros u pid A k Hk. repeat (apply keeps_bind; [|intros ?]); try done.
    + apply keeps_query.
    + apply keeps_scalar_one_or_none.
    + destruct a0; [|apply keeps_ret].
      apply keeps_bind; [|intros ?]; by apply keeps_execute.
Qed.

(** X2.  The two follow counters are the degrees of the follow graph: from
    a state in which every user's [followers_count] is the number of Follow
    rows that point at the user and [following_count] the number that start
    at the user, every sequence of requests leads to such a state. *)
Theorem follow_counters_are_degrees (w : World) (actions : list action) :
  counters_consistent (db w) → counters_consistent (db (run actions w)).
Proof. apply counters_consistent_run. Qed.

Lemma follow_counters_are_degrees_witness :
  counters_consistent
    (db (run [Follow (Some 1%N) 2; Follow (Some 3%N) 2; Follow (Some 2%N) 3;
              AcceptRequest (Some 3%N) 2; Unfollow (Some 1%N) 2;
              RemoveFollower (Some 2%N) 3] sample_world)).
Proof.
  apply (follow_counters_are_degrees sample_world).
  apply (bool_decide_unpack _). vm_compute. exact I.
Defined.
(** ** [likes_count] is the number of Like rows *)

Lemma filter_ne_length (P : Like.t → Prop) `{!∀ x, Decision (P x)}
    (like : Like.t) (L : list Like.t) :
  length (filter P L)
  = (length (filter P (filter (λ l, l ≠ like) L))
     + (if decide (P like) then length (filter (λ l, l = like) L) else 0))%nat.
Proof.
  induction L as [|x L IH]; [by destruct (decide (P like))|].
  rewrite !filter_cons.
  destruct (decide (x ≠ like)) as [Hne|Heq]; rewrite ?filter_cons;
    destruct (decide (P x)), (decide (P like)), (decide (x = like));
    cbn; subst; try done; lia.
Qed.

Lemma single_match_once pid u like (L : list Like.t) :
  filter (like_matches pid u) L = [like] →
  like_matches pid u like ∧ length (filter (λ l, l = like) L) = 1%nat.
Proof.
  intros HL.
  assert (like ∈ filter (like_matches pid u) L) as [Hm _]%list_elem_of_filter
    by (rewrite HL; apply list_elem_of_here).
  split; [done|].
  assert (filter (λ l, l = like) L
          = filter (λ l, l = like) (filter (like_matches pid u) L)) as ->.
  { rewrite list_filter_filter. apply list_filter_iff. naive_solver. }
  rewrite HL. rewrite filter_cons, decide_True by done. done.
Qed.

Lemma likes_consistent_like_block u pid {A} (k : M A) :
  keeps likes_consistent k →
  keeps likes_consistent
    (execute (with_likes (λ l, l ++ [Like.mk u (Some pid) None None])) ;;;
     execute (with_posts (alter incr_likes pid)) ;;; k).
Proof.
  intros Hk s [Hc Hs]. unfold bind, execute. cbn. apply Hk. split; [done|].
  cbn. intros Hf p r Hr. specialize (Hs Hf). cbn in *.
  rewrite filter_app, length_app, filter_cons. cbn.
  apply lookup_alter_Some in Hr as [(-> & x & Hx & ->)|[Hne Hr]].
  - rewrite decide_True by done. unfold incr_likes. cbn.
    rewrite or0_id, (Hs _ _ Hx). cbn. lia.
  - rewrite decide_False by congruence. rewrite (Hs _ _ Hr). cbn. lia.
Qed.

Lemma likes_consistent_unlike_block u pid {A} (k : M A) :
  keeps likes_consistent k →
  keeps likes_consistent
    (rows <- query (λ d, filter (like_matches pid u) (likes d)) ;;
     like <- scalar_one_or_none rows ;;
     (match like with
      | Some like =>
          execute (with_likes (filter (λ l, l ≠ like))) ;;;
          execute (with_posts (alter decr_likes pid))
      | None => ret tt
      end) ;;; k).
Proof.
  intros Hk s [Hc Hs]. unfold bind, query. cbn.
  destruct (filter (like_matches pid u) (likes (session s)))
    as [|like [|??]] eqn:HL; cbn; [by apply Hk| |done].
  apply Hk. split; [done|]. cbn. intros Hf p r Hr. specialize (Hs Hf).
  destruct (single_match_once _ _ _ _ HL) as [[Hp _] H1].
  pose proof (filter_ne_length (λ l, Like.post_id l = Some p) like
                (likes (session s))) as Hlen.
  rewrite H1 in Hlen. cbn in Hr |- *.
  apply lookup_alter_Some in Hr as [(-> & x & Hx & ->)|[Hne Hr]].
  - rewrite decide_True in Hlen by done. unfold decr_likes. cbn.
    rewrite or0_id, (Hs _ _ Hx). lia.
  - rewrite decide_False in Hlen by congruence. rewrite (Hs _ _ Hr). lia.
Qed.

Lemma likes_consistent_run l w :
  likes_consistent (db w) → likes_consistent (db (run l w)).
Proof.
  apply run_keeps; try done.
  - intros a b A k Hk. unfold db_add_follow.
    intros s [Hc Hs]. unfold bind, incr_followers_count, incr_following_count,
      execute.
    case_bool_decide; cbn; apply Hk; by split.
  - intros a b A k Hk s [Hc Hs].
    unfold bind, delete_follow, decr_followers_count, decr_following_count,
      execute, query, commit, ret.
    cbn. case_bool_decide; cbn; [|by apply Hk].
    destruct (flush_conflict s) eqn:Hf; cbn; [by split|].
    apply Hk. split; cbn; auto.
  - intros a b A k Hk s [Hc Hs].
    unfold bind, delete_follow, decr_followers_count, decr_following_count,
      execute, query, commit, ret.
    cbn. case_bool_decide; cbn; [|by apply Hk].
    destruct (flush_conflict s) eqn:Hf; cbn; [by split|].
    apply Hk. split; cbn; auto.
  - intros. by apply likes_consistent_like_block.
  - intros. by apply likes_consistent_unlike_block.
Qed.

(** X3.  A post's [likes_count] is the number of its Like rows: from a state
    in which this holds for every post, every sequence of requests leads to
    such a state. *)
Theorem likes_count_is_row_count (w : World) (actions : list action) :
  likes_consistent (db w) → likes_consistent (db (run actions w)).
Proof. apply likes_consistent_run. Qed.

Lemma likes_count_is_row_count_witness :
  likes_consistent
    (db (run [LikePost (Some 1%N) 10; LikePost (Some 2%N) 10;
              LikePost (Some 1%N) 10; UnlikePost (Some 2%N) 10;
              UnlikePost (Some 3%N) 11] sample_world)).
Proof.
  apply (likes_count_is_row_count sample_world).
  apply (bool_decide_unpack _). vm_compute. exact I.
Defined.
(** ** Profiles *)







(** ** Followers and following lists *)








(** ** What a follow answers and what is then read back *)

Lemma follow_then_check w A B :
  match request (follow_user B (Some A)) w with
  | (inr r, w') => request (check_following B (Some A)) w' = (inr r, w')
  | (inl _, _) => True
  end.
Proof.
  unfold follow_user.
  destruct (users (db w) !! A) as [ua|] eqn:HA; [|by run].
  destruct (User.is_restricted ua) eqn:HAr; [by run|].
  destruct (decide (B = A)) as [->|Hne]; [by run|].
  destruct (users (db w) !! B) as [ub|] eqn:HB; [|by run].
  destruct (decide ((A, B) ∈ follows (db w))) as [Hf|Hf].
  { run. unfold check_following. by run. }
  destruct (User.is_private ub) eqn:Hp.
  - destruct (decide ((A, B) ∈ follow_requests (db w))) as [Hq|Hq].
    { run. unfold check_following. by run. }
    run. destruct (broker_up w) eqn:Hb; run_simpl; [|done].
    unfold check_following. run.
    by rewrite bool_decide_eq_true_2 by set_solver.
  - run. destruct (broker_up w) eqn:Hb; run_simpl; [|done].
    unfold check_following. run_simpl.
    rewrite lookup_alter_eq, lookup_alter_ne, HA by done. run_simpl.
    rewrite HAr. run_simpl.
    by rewrite bool_decide_eq_true_2 by set_solver.
Qed.

(** X7.  The answer of a follow is the state it leaves: when [follow_user]
    answers, [check_following] of the same caller for the same target then
    gives the same [follows] and [requested] flags, and changes nothing. *)
Theorem follow_answer_is_the_new_state (w w' : World) (A B : N)
    (r : list (string * bool)) :
  request (follow_user B (Some A)) w = (inr r, w') →
  request (check_following B (Some A)) w' = (inr r, w').
Proof.
  intros H. pose proof (follow_then_check w A B) as Hc. by rewrite H in Hc.
Qed.

Lemma follow_answer_is_the_new_state_witness :
  request (check_following 3 (Some 1%N))
    (request (follow_user 3 (Some 1%N)) sample_world).2
  = (inr [("follows", false); ("requested", true)],
     (request (follow_user 3 (Some 1%N)) sample_world).2).
Proof.
  apply (follow_answer_is_the_new_state sample_world). vm_compute. reflexivity.
Defined.
(** ** Round trips *)



Lemma incr_decr_commute u :
  decr_followers (incr_following u) = incr_following (decr_followers u)
  ∧ decr_following (incr_followers u) = incr_followers (decr_following u).
Proof.
  destruct u. unfold decr_followers, decr_following, incr_followers,
    incr_following. cbn. split; by case_bool_decide.
Qed.






(** ** A request that fails changes no table *)





































(** ** Reading notifications *)

Lemma unread_after_mark_all user_id v (l : list Notification.t) :
  filter (unread_of v)
    ((λ n, if decide (unread_of user_id n) then set_is_read n else n) <$> l)
  = if decide (v = user_id) then [] else filter (unread_of v) l.
Proof.
  induction l as [|n l IH]; [by case_decide|].
  rewrite fmap_cons, !filter_cons, IH. unfold unread_of.
  destruct n as [nu na ty tx tp tc tm rd]. cbn.
  repeat (case_decide; cbn in *); destruct_and?; simplify_eq; try done;
    naive_solver.
Qed.

Lemma mark_all_as_read_run w u ua :
  users (db w) !! u = Some ua → User.is_restricted ua = false →
  request (mark_all_as_read (Some u)) w
  = (inr [("updated", get_unread_count (db w) u)],
     mkWorld
       (with_notifications
          (fmap (λ n, if decide (unread_of u n) then set_is_read n else n))
          (db w))
       (push_queue w) (broker_up w)).
Proof. intros Hu Hr. unfold mark_all_as_read, mark_all_read. by run. Qed.

(** X11.  [mark_all_as_read] answers with the number of the caller's unread
    notifications and leaves the caller none; the unread notifications of
    every other user, the number of rows and all other tables are as
    before, and a second call answers 0. *)
Theorem mark_all_read_clears_own_unread (w : World) (u : N) (ua : User.t) :
  users (db w) !! u = Some ua → User.is_restricted ua = false →
  let r := request (mark_all_as_read (Some u)) w in
  r.1 = inr [("updated", get_unread_count (db w) u)]
  ∧ get_unread_count (db r.2) u = 0%nat
  ∧ (∀ v, v ≠ u →
       filter (unread_of v) (notifications (db r.2))
       = filter (unread_of v) (notifications (db w)))
  ∧ length (notifications (db r.2)) = length (notifications (db w))
  ∧ users (db r.2) = users (db w) ∧ posts (db r.2) = posts (db w)
  ∧ follows (db r.2) = follows (db w) ∧ likes (db r.2) = likes (db w)
  ∧ push_queue r.2 = push_queue w
  ∧ (request (mark_all_as_read (Some u)) r.2).1 = inr [("updated", 0%nat)]
  ∧ request (unread_count (Some u)) r.2 = (inr [("count", 0%nat)], r.2).
Proof.
  intros Hu Hr r. subst r. rewrite (mark_all_as_read_run w u ua Hu Hr).
  cbn [fst snd db]. split_and!; try done.
  - unfold get_unread_count. cbn.
    by rewrite unread_after_mark_all, decide_True.
  - intros v Hv. cbn. by rewrite unread_after_mark_all, decide_False.
  - cbn. by rewrite length_fmap.
  - erewrite mark_all_as_read_run by (cbn; eauto). cbn.
    unfold get_unread_count. cbn.
    by rewrite unread_after_mark_all, decide_True.
  - unfold unread_count. run. unfold get_unread_count. cbn.
    by rewrite unread_after_mark_all, decide_True.
Qed.

Lemma mark_all_read_clears_own_unread_witness :
  get_unread_count
    (db (request (mark_all_as_read (Some 2%N))
           (run [Follow (Some 1%N) 2; LikePost (Some 1%N) 11] sample_world)).2) 2
  = 0%nat.
Proof.
  refine (proj1 (proj2 (mark_all_read_clears_own_unread
                          (run [Follow (Some 1%N) 2; LikePost (Some 1%N) 11]
                               sample_world)
                          2 (incr_followers (sample_user "bob" false)) _ _))).
  - vm_compute. reflexivity.
  - reflexivity.
Defined.

Lemma filter_alter_hit (P : Notification.t → Prop) `{!∀ n, Decision (P n)}
    (f : Notification.t → Notification.t) (l : list Notification.t) i n :
  l !! i = Some n → P n → ¬ P (f n) →
  length (filter P l) = S (length (filter P (alter f i l))).
Proof.
  revert i. induction l as [|x l IH]; intros [|i] Hi Hn Hfn; try done.
  - cbn in Hi. simplify_eq. cbn [alter list_alter].
    by rewrite !filter_cons, decide_True, decide_False.
  - cbn in Hi. cbn [alter list_alter]. rewrite !filter_cons.
    specialize (IH i Hi Hn Hfn). case_decide; cbn; by rewrite IH.
Qed.

Lemma filter_alter_miss (P : Notification.t → Prop) `{!∀ n, Decision (P n)}
    (f : Notification.t → Notification.t) (l : list Notification.t) i n :
  l !! i = Some n → ¬ P n → ¬ P (f n) →
  filter P (alter f i l) = filter P l.
Proof.
  revert i. induction l as [|x l IH]; intros [|i] Hi Hn Hfn; try done.
  - cbn in Hi. simplify_eq. cbn [alter list_alter].
    by rewrite !filter_cons, !decide_False.
  - cbn in Hi. cbn [alter list_alter]. rewrite !filter_cons.
    by rewrite (IH i Hi Hn Hfn).
Qed.

(** X12.  [mark_one_as_read] marks a notification only for its recipient and
    only while it is unread: then it answers [updated: true] and the
    caller's unread count drops by one while nobody else's changes.  For a
    notification of another user, one that is already read, or an unknown
    id, it answers [updated: false] and changes nothing. *)
Theorem mark_one_read_only_own_unread (w : World) (u : N) (ua : User.t)
    (notification_id : nat) :
  users (db w) !! u = Some ua → User.is_restricted ua = false →
  let r := request (mark_one_as_read notification_id (Some u)) w in
  match notifications (db w) !! notification_id with
  | Some n =>
      if decide (unread_of u n)
      then r.1 = inr [("updated", true)]
           ∧ notifications (db r.2) !! notification_id = Some (set_is_read n)
           ∧ get_unread_count (db w) u = S (get_unread_count (db r.2) u)
           ∧ (∀ v, v ≠ u →
                filter (unread_of v) (notifications (db r.2))
                = filter (unread_of v) (notifications (db w)))
      else r = (inr [("updated", false)], w)
  | None => r = (inr [("updated", false)], w)
  end.
Proof.
  intros Hu Hr r. subst r. unfold mark_one_as_read, mark_one_read. run.
  destruct (notifications (db w) !! notification_id) as [n|] eqn:Hn;
    run_simpl; [|by rewrite world_eta].
  destruct (decide (unread_of u n)) as [Hun|Hun].
  - rewrite bool_decide_eq_true_2 by done. run_simpl. split_and!; try done.
    + by rewrite list_lookup_alter_eq, Hn.
    + unfold get_unread_count. cbn.
      apply (filter_alter_hit _ _ _ _ n); [done..|]. by intros [_ ?].
    + intros v Hv. apply (filter_alter_miss _ _ _ _ n); [done| |by intros [_ ?]].
      destruct Hun as [Hn' _]. intros [? _]. congruence.
  - rewrite bool_decide_eq_false_2 by done. run_simpl. by rewrite world_eta.
Qed.

Lemma mark_one_read_only_own_unread_witness :
  request (mark_one_as_read 0 (Some 1%N))
    (run [Follow (Some 1%N) 2] sample_world)
  = (inr [("updated", false)], run [Follow (Some 1%N) 2] sample_world).
Proof.
  apply (mark_one_read_only_own_unread (run [Follow (Some 1%N) 2] sample_world)
           1 (incr_following (sample_user "alice" false)) 0).
  - vm_compute. reflexivity.
  - reflexivity.
Defined.
(** ** The flags of a listed post *)

Lemma elem_of_get_user_liked_post_ids d user_id post_ids pid :
  pid ∈ get_user_liked_post_ids d user_id post_ids
  ↔ pid ∈ post_ids ∧ ∃ l, l ∈ likes d ∧ like_matches pid user_id l.
Proof.
  unfold get_user_liked_post_ids, like_matches.
  destruct post_ids as [|i ids].
  { split; [by intros ?%elem_of_empty | by intros [?%elem_of_nil _]]. }
  rewrite elem_of_list_to_set, list_elem_of_omap. split.
  - intros (l & Hl & H). destruct (Like.post_id l) as [p|] eqn:Hp; [|done].
    case_bool_decide as Hd; [|done]. simplify_eq. destruct Hd as [Hu Hin].
    split; [done|]. by exists l.
  - intros (Hin & l & Hl & Hp & Hu). exists l. split; [done|].
    rewrite Hp. by rewrite bool_decide_eq_true_2.
Qed.




(** ** Merging two sorted windows *)

Section merge_windows.
Context {A : Type} (key : A → Z).

Let before (x y : A) : bool := bool_decide (key y < key x).








End merge_windows.
(** ** The windows [get_feed] fetches are enough *)

#[local] Instance sql_desc_le_trans {A} (f : A → option Z) :
  Transitive (λ x y, sql_desc_le (f x) (f y)).
Proof.
  intros x y z. unfold sql_desc_le.
  destruct (f x), (f y), (f z); try done. lia.
Qed.














(** ** Reposts in the feed *)

Lemma elem_of_get_feed_reposts d u skip limit o :
  o ∈ get_feed_reposts d u skip limit →
  ∃ p, reposts d !! ro_id o = Some (ro_row o)
    ∧ posts d !! Repost.post_id (ro_row o) = Some p
    ∧ repost_eligible d u (ro_row o) p
    ∧ o = load_repost d (ro_id o, ro_row o).
Proof.
  unfold get_feed_reposts.
  intros ([[i r] p] & -> & H)%list_elem_of_fmap. cbn.
  apply elem_of_take in H as (j & H & _). rewrite lookup_drop in H.
  apply list_elem_of_lookup_2 in H. rewrite elem_of_sort_by in H.
  apply list_elem_of_filter in H as [He H]. cbn in He.
  apply list_elem_of_omap in H as ([i' r'] & Hr%elem_of_map_to_list & E).
  cbn in E. destruct (posts d !! Repost.post_id r') as [p'|] eqn:Hp; [|done].
  cbn in E. simplify_eq. exists p. split_and!; try done.
  unfold repost_eligible. by rewrite <- !subq_following_spec.
Qed.

Lemma in_feed_reposts_iff d u limit rid r p :
  reposts d !! rid = Some r → posts d !! Repost.post_id r = Some p →
  (0 < limit)%nat →
  (∃ skip, load_repost d (rid, r) ∈ get_feed_reposts d u skip limit)
  ↔ repost_eligible d u r p.
Proof.
  intros Hr Hp Hl. split.
  - intros [skip H]. apply elem_of_get_feed_reposts in H as (p' & _ & Hp' & He & _).
    cbn in *. by simplify_eq.
  - intros He. unfold get_feed_reposts.
    set (q := sort_by _ _).
    assert (((rid, r), p) ∈ q) as Hq.
    { subst q. rewrite elem_of_sort_by. apply list_elem_of_filter. split.
      - cbn. unfold repost_eligible in He. by rewrite !subq_following_spec.
      - apply list_elem_of_omap. exists (rid, r). split.
        + by apply elem_of_map_to_list.
        + cbn. by rewrite Hp. }
    apply (paging_covers q _ limit Hl) in Hq as [skip Hq].
    exists skip. apply list_elem_of_fmap. by exists ((rid, r), p).
Qed.

(** X16.  A repost is served by [get_feed_reposts] exactly when its post
    exists and the viewer is the reposter, follows the reposter, follows the
    author, is the author, or the post is public.  The visibility tier of
    the post takes no other part: the repost of a private or followers-only
    post by somebody the viewer follows is served, and it carries the post. *)
Theorem repost_feed_eligibility (d : DB) (u : N) (limit : nat)
    (rid : N) (r : Repost.t) :
  reposts d !! rid = Some r → (0 < limit)%nat →
  match posts d !! Repost.post_id r with
  | None => ∀ skip, rid ∉ ro_id <$> get_feed_reposts d u skip limit
  | Some p =>
      ((∃ skip, rid ∈ ro_id <$> get_feed_reposts d u skip limit)
       ↔ repost_eligible d u r p)
      ∧ (∀ skip o, o ∈ get_feed_reposts d u skip limit → ro_id o = rid →
           ro_row o = r
           ∧ ro_post o = Some (load_post d (Repost.post_id r, p)))
      ∧ ((u, Repost.user_id r) ∈ follows d →
         ∃ skip, rid ∈ ro_id <$> get_feed_reposts d u skip limit)
  end.
Proof.
  intros Hr Hl. destruct (posts d !! Repost.post_id r) as [p|] eqn:Hp.
  - assert ((∃ skip, rid ∈ ro_id <$> get_feed_reposts d u skip limit)
            ↔ repost_eligible d u r p) as Hiff.
    { rewrite <- (in_feed_reposts_iff d u limit rid r p) by done.
      split; intros [skip H]; exists skip.
      - apply list_elem_of_fmap in H as (o & -> & Ho).
        pose proof Ho as (p' & Hr' & _ & _ & Eo)%elem_of_get_feed_reposts.
        rewrite Hr in Hr'. injection Hr' as Er. subst r. by rewrite <- Eo.
      - apply list_elem_of_fmap. by exists (load_repost d (rid, r)). }
    split_and!; [done| |].
    + intros skip o Ho <-.
      apply elem_of_get_feed_reposts in Ho as (p' & Hr' & Hp' & _ & Eo).
      rewrite Hr in Hr'. injection Hr' as Er. subst r. split; [done|].
      rewrite Eo. cbn. by rewrite Hp.
    + intros Hf. apply Hiff. unfold repost_eligible. auto.
  - intros skip (o & -> & Ho)%list_elem_of_fmap.
    apply elem_of_get_feed_reposts in Ho as (p' & Hr' & Hp' & _).
    rewrite Hr in Hr'. injection Hr' as Er. subst r. congruence.
Qed.

Lemma repost_feed_eligibility_witness :
  ∃ skip, 20%N ∈ ro_id <$> get_feed_reposts sample_db_reposts 3 skip 10.
Proof.
  refine (proj2 (proj2 (repost_feed_eligibility sample_db_reposts 3 10 20
                          (Repost.mk 1 11 "look" (Some 12)) _ _)) _).
  - vm_compute. reflexivity.
  - lia.
  - apply (bool_decide_unpack _). vm_compute. exact I.
Defined.


(** ** Creating and editing a post *)






(** ** A request that outlives its purpose *)


Lemma reject_follow_request_run w A B ub :
  users (db w) !! B = Some ub → User.is_restricted ub = false → A ≠ B →
  request (reject_follow_request A (Some B)) w
  = (inr [("rejected", true)],
     mkWorld (with_follow_requests (λ f, f ∖ {[ (A, B) ]}) (db w))
             (push_queue w) (broker_up w)).
Proof.
  intros HB HBr Hne. unfold reject_follow_request.
  destruct (decide ((A, B) ∈ follow_requests (db w))) as [Hq|Hq]; run; [done|].
  f_equal. destruct w as [d q b]. cbn in *. f_equal. destruct d.
  unfold with_follow_requests. cbn in *. f_equal. set_solver.
Qed.

Lemma cancel_follow_request_run w A B ua :
  users (db w) !! A = Some ua → User.is_restricted ua = false →
  request (cancel_follow_request B (Some A)) w
  = (inr [("requested", false)],
     mkWorld (with_follow_requests (λ f, f ∖ {[ (A, B) ]}) (db w))
             (push_queue w) (broker_up w)).
Proof.
  intros HA HAr. unfold cancel_follow_request.
  destruct (decide ((A, B) ∈ follow_requests (db w))) as [Hq|Hq]; run; [done|].
  f_equal. destruct w as [d q b]. cbn in *. f_equal. destruct d.
  unfold with_follow_requests. cbn in *. f_equal. set_solver.
Qed.



(** X21.  Cancelling and rejecting delete the one FollowRequest row and
    nothing else, whether or not it is there, and answer the same in both
    cases; rejecting one's own request is refused with 400.  Cancelling
    undoes a follow request to a private profile: the requests, the Follow
    rows and the users are as before, while the notification of the request
    stays with its recipient. *)
Theorem cancel_undoes_request (w : World) (A B : N) (ua : User.t) :
  users (db w) !! A = Some ua → User.is_restricted ua = false →
  request (cancel_follow_request B (Some A)) w
  = (inr [("requested", false)],
     mkWorld (with_follow_requests (λ f, f ∖ {[ (A, B) ]}) (db w))
             (push_queue w) (broker_up w))
  ∧ (A ≠ B →
     request (reject_follow_request B (Some A)) w
     = (inr [("rejected", true)],
        mkWorld (with_follow_requests (λ f, f ∖ {[ (B, A) ]}) (db w))
                (push_queue w) (broker_up w)))
  ∧ request (reject_follow_request A (Some A)) w
    = (inl (HTTPException 400 "Cannot reject your own request"), w)
  ∧ (∀ ub, users (db w) !! B = Some ub → User.is_private ub = true →
       A ≠ B → (A, B) ∉ follows (db w) → (A, B) ∉ follow_requests (db w) →
       broker_up w = true →
       let w2 := run [Follow (Some A) B; CancelRequest (Some A) B] w in
       follow_requests (db w2) = follow_requests (db w)
       ∧ follows (db w2) = follows (db w)
       ∧ users (db w2) = users (db w)
       ∧ notifications (db w2)
         = notifications (db w)
           ++ [Notification.mk B A "follow_request"
                 (shown_name ua +:+ " requested to follow you")
                 None None None false]).
Proof.
  intros HA HAr. split_and!.
  - by apply (cancel_follow_request_run w A B ua).
  - intros Hne. by apply (reject_follow_request_run w B A ua).
  - unfold reject_follow_request. by run.
  - intros ub HB Hp Hne Hnf Hnq Hb w2. subst w2. cbn [run foldl perform].
    rewrite (follow_user_private_run w A B ua HA HAr ub HB Hp Hne Hnf Hnq Hb).
    cbn [snd]. erewrite cancel_follow_request_run by (cbn; eauto).
    cbn. split_and!; try done. set_solver.
Qed.

Lemma cancel_undoes_request_witness :
  request (cancel_follow_request 3 (Some 1%N)) sample_world
  = (inr [("requested", false)],
     mkWorld (with_follow_requests (λ f, f ∖ {[ (1%N, 3%N) ]}) (db sample_world))
             (push_queue sample_world) (broker_up sample_world)).
Proof.
  refine (proj1 (cancel_undoes_request sample_world 1 3
                   (sample_user "alice" false) _ _)).
  - vm_compute. reflexivity.
  - reflexivity.
Defined.
(** ** What the requests never change *)

Lemma fmap_alter_same {V W} (g : V → W) (f : V → V) (i : N) (m : gmap N V) :
  (∀ x, g (f x) = g x) → g <$> alter f i m = g <$> m.
Proof.
  intros Hg. apply map_eq. intros j. rewrite !lookup_fmap, lookup_alter_at.
  case_decide; [|done]. destruct (m !! j); cbn; [|done]. by rewrite Hg.
Qed.

Lemma same_identities_users d0 (f : User.t → User.t) i d :
  (∀ u, account_identity (f u) = account_identity u) →
  same_identities d0 d → same_identities d0 (with_users (alter f i) d).
Proof.
  intros Hf (Hu & Hp & Hr). split_and!; cbn; [|done..].
  by rewrite fmap_alter_same.
Qed.

Lemma same_identities_posts d0 (f : Post.t → Post.t) i d :
  (∀ p, post_body (f p) = post_body p) →
  same_identities d0 d → same_identities d0 (with_posts (alter f i) d).
Proof.
  intros Hf (Hu & Hp & Hr). split_and!; cbn; [done| |done].
  by rewrite fmap_alter_same.
Qed.

(** X22.  No sequence of follow, unfollow, remove-follower, accept, reject,
    cancel, like, unlike and profile-update requests creates or deletes an
    account or a post, or changes an account's username, email, verified
    mark, restriction or creation time, or a post's author, content, media,
    visibility, comment, repost and view counters or creation time, or any
    repost: a restricted account stays restricted. *)
Theorem requests_keep_identities (w : World) (actions : list action) :
  same_identities (db w) (db (run actions w))
  ∧ ∀ u r, users (db w) !! u = Some r → User.is_restricted r = true →
      ∃ r', users (db (run actions w)) !! u = Some r'
            ∧ User.is_restricted r' = true.
Proof.
  assert (same_identities (db w) (db (run actions w))) as H.
  { apply (run_preserves (same_identities (db w))); try done.
    - intros i d. by apply same_identities_users.
    - intros i d. by apply same_identities_users.
    - intros i d. apply same_identities_users. intros u.
      unfold decr_followers. by case_bool_decide.
    - intros i d. apply same_identities_users. intros u.
      unfold decr_following. by case_bool_decide.
    - intros data i d. by apply same_identities_users.
    - intros i d. by apply same_identities_posts.
    - intros i d. by apply same_identities_posts. }
  split; [done|]. intros u r Hu Hr. destruct H as (Hus & _).
  assert ((account_identity <$> users (db (run actions w))) !! u
          = Some (account_identity r)) as E
    by (by rewrite Hus, lookup_fmap, Hu).
  rewrite lookup_fmap in E.
  destruct (users (db (run actions w)) !! u) as [r'|]; [|done].
  exists r'. split; [done|]. cbn in E. injection E as E.
  unfold account_identity in E. congruence.
Qed.
(** ** Removing a follower *)

Lemma is_restricted_decr u :
  User.is_restricted (decr_followers u) = User.is_restricted u
  ∧ User.is_restricted (decr_following u) = User.is_restricted u.
Proof. unfold decr_followers, decr_following. split; by case_bool_decide. Qed.

(** X23.  [remove_follower] answers [removed: true] whether or not the user
    was a follower; without a Follow row it changes nothing, with one it
    deletes that row only.  Afterwards [check_follows_me] reports that the
    user does not follow the caller. *)
Theorem remove_follower_then_check (w : World) (A X : N) (ua : User.t) :
  users (db w) !! A = Some ua → User.is_restricted ua = false →
  let r := request (remove_follower X (Some A)) w in
  r.1 = inr [("removed", true)]
  ∧ follows (db r.2) = follows (db w) ∖ {[ (X, A) ]}
  ∧ ((X, A) ∉ follows (db w) → r.2 = w)
  ∧ request (check_follows_me X (Some A)) r.2 = (inr [("follows", false)], r.2).
Proof.
  intros HA HAr r. subst r.
  destruct (decide ((X, A) ∈ follows (db w))) as [Hf|Hf].
  - rewrite (remove_follower_present_run w A X ua HA HAr Hf). cbn [fst snd].
    split_and!; try done.
    unfold check_follows_me. run_simpl.
    rewrite lookup_alter_eq. rewrite lookup_alter_at.
    case_decide; rewrite HA; run_simpl;
      rewrite ?(proj1 (is_restricted_decr _)), ?(proj2 (is_restricted_decr _)),
        HAr; run_simpl.
    all: by rewrite bool_decide_eq_false_2 by set_solver.
  - assert (request (remove_follower X (Some A)) w
            = (inr [("removed", true)], w)) as ->.
    { unfold remove_follower. by run. }
    cbn [fst snd]. split_and!; try done; [set_solver|].
    unfold check_follows_me. by run.
Qed.

Lemma remove_follower_then_check_witness :
  (request (remove_follower 2 (Some 1%N)) sample_world).1
  = inr [("removed", true)].
Proof.
  refine (proj1 (remove_follower_then_check sample_world 1 2
                   (sample_user "alice" false) _ _)).
  - vm_compute. reflexivity.
  - reflexivity.
Defined.
(** ** No notification without its push message *)

Lemma pushes_ret {A} (a : A) : pushes (ret a).
Proof. by intros s ??. Qed.

Lemma pushes_raise {A} (e : exn) : pushes (raise (A:=A) e).
Proof. intros s ??. by split. Qed.

Lemma pushes_query {A} (f : DB → A) : pushes (query f).
Proof. by intros s ??. Qed.

Lemma pushes_bind {A B} (m : M A) (k : A → M B) :
  pushes m → (∀ a, pushes (k a)) → pushes (bind m k).
Proof.
  intros Hm Hk s Hc Hs. unfold bind. destruct (Hm s Hc Hs) as [Hc' Hs'].
  destruct (m s) as [[e|a] s']; cbn in *.
  - split; [done|]. by intros [? [=]].
  - apply Hk; [done|]. apply Hs'. by eexists.
Qed.

Lemma pushes_execute (f : DB → DB) :
  (∀ d, notifications (f d) = notifications d) → pushes (execute f).
Proof.
  intros Hf s Hc Hs. split; cbn; [done|]. intros _ n. rewrite Hf. apply Hs.
Qed.

Lemma pushes_commit : pushes commit.
Proof.
  intros s Hc Hs. unfold commit. destruct (flush_conflict s); cbn; by split.
Qed.

Lemma pushes_scalar_one_or_none {A} (rows : list A) :
  pushes (scalar_one_or_none rows).
Proof. intros s ??. by destruct rows as [|? [|??]]; cbn. Qed.

Lemma pushes_db_add_follow a b : pushes (db_add_follow a b).
Proof. intros s Hc Hs. unfold db_add_follow. by case_bool_decide; cbn. Qed.

Lemma pushes_db_add_follow_request a b : pushes (db_add_follow_request a b).
Proof.
  intros s Hc Hs. unfold db_add_follow_request. by case_bool_decide; cbn.
Qed.

Lemma pushes_create_notification u a ty tx tp tc tm :
  pushes (create_notification u a ty tx tp tc tm).
Proof.
  intros s Hc Hs. unfold create_notification.
  destruct (decide (u = a)) as [|Hua]; [done|].
  unfold bind, execute, send_push_notification_delay, ret. cbn.
  destruct (broker s); cbn.
  - split.
    + intros x Hx. apply elem_of_app. left. by apply Hc.
    + intros _ x [Hn|Hn]%elem_of_app; apply elem_of_app.
      * left. by apply Hs.
      * right. apply list_elem_of_singleton in Hn as ->. by left.
  - split; [done|]. by intros [? [=]].
Qed.

Ltac pushes_step :=
  first
    [ apply pushes_ret | apply pushes_raise | apply pushes_query
    | apply pushes_commit | apply pushes_scalar_one_or_none
    | apply pushes_db_add_follow | apply pushes_db_add_follow_request
    | apply pushes_create_notification
    | apply pushes_execute; intros; reflexivity
    | apply pushes_bind; [|intros ?]
    | match goal with
      | |- pushes (match ?x with _ => _ end) => destruct x
      end ].

Ltac pushes_go :=
  unfold get_current_user, get_current_user_optional, select_user, select_post,
    _is_following, _has_pending_request, delete_follow, delete_follow_request,
    incr_followers_count, incr_following_count,
    decr_followers_count, decr_following_count;
  repeat pushes_step.

Lemma request_pushes {A} (handler : M A) w :
  pushes handler → notified (db w) (push_queue w) →
  notified (db (request handler w).2) (push_queue (request handler w).2).
Proof.
  intros Hh Hw. unfold request.
  destruct (Hh (open_session w) Hw Hw) as [Hc Hs].
  destruct (handler (open_session w)) as [[e|a] s]; cbn in *; [done|].
  unfold commit. destruct (flush_conflict s); cbn; [done|].
  apply Hs. by eexists.
Qed.

Lemma perform_pushes a w :
  notified (db w) (push_queue w) →
  notified (db (perform a w)) (push_queue (perform a w)).
Proof.
  intros Hw. destruct a; cbn [perform]; [apply request_pushes; [|done]..|done].
  - unfold follow_user. pushes_go.
  - unfold unfollow_user. pushes_go.
  - unfold remove_follower. pushes_go.
  - unfold accept_follow_request. pushes_go.
  - unfold reject_follow_request. pushes_go.
  - unfold cancel_follow_request. pushes_go.
  - unfold like_post. pushes_go.
  - unfold unlike_post. pushes_go.
  - unfold update_me. pushes_go.
Qed.

(** X24.  No notification is stored without its push message: from a state
    in which the message of every stored notification has been handed to
    the queue, every sequence of requests and broker changes leads to such a
    state.  (A failed request may leave a message without its
    notification, never the other way round.) *)
Theorem every_notification_was_pushed (w : World) (actions : list action) :
  notified (db w) (push_queue w) →
  notified (db (run actions w)) (push_queue (run actions w)).
Proof.
  revert w. induction actions as [|a l IH]; intros w Hw; cbn; [done|].
  apply IH. by apply perform_pushes.
Qed.

Lemma every_notification_was_pushed_witness :
  notified
    (db (run [Follow (Some 1%N) 2; BrokerChange false; LikePost (Some 1%N) 11;
              BrokerChange true; Follow (Some 2%N) 3] sample_world))
    (push_queue
       (run [Follow (Some 1%N) 2; BrokerChange false; LikePost (Some 1%N) 11;
             BrokerChange true; Follow (Some 2%N) 3] sample_world)).
Proof.
  apply (every_notification_was_pushed sample_world).
  intros n Hn. by apply elem_of_nil in Hn.
Defined.
(** ** Editing the profile *)





(** ** Pages of the post feed *)




(** ** What a like answers and what is then read back *)

Lemma liked_ids_single d u pid :
  bool_decide (pid ∈ get_user_liked_post_ids d u [pid])
  = bool_decide (filter (like_matches pid u) (likes d) ≠ []).
Proof.
  apply bool_decide_ext. rewrite elem_of_get_user_liked_post_ids. split.
  - intros (_ & l & Hl & Hm) E.
    assert (l ∈ filter (like_matches pid u) (likes d)) as Hin
      by by apply list_elem_of_filter.
    rewrite E in Hin. by apply elem_of_nil in Hin.
  - intros Hne. split; [by left|].
    destruct (filter (like_matches pid u) (likes d)) as [|l ls] eqn:E; [done|].
    assert (l ∈ filter (like_matches pid u) (likes d)) as Hin
      by (rewrite E; left).
    apply list_elem_of_filter in Hin as [Hm Hl]. by exists l.
Qed.

Lemma get_post_at s u pid ua p :
  users (session s) !! u = Some ua → posts (session s) !! pid = Some p →
  get_post pid (Some u) s
  = (inr (post_to_response (load_post (session s) (pid, p))
            (bool_decide (filter (like_matches pid u) (likes (session s)) ≠ []))
            false), s).
Proof.
  intros Hu Hp. rewrite <- liked_ids_single. unfold get_post. run_simpl.
  rewrite Hu, Hp. by run_simpl.
Qed.

Lemma like_then_get w u pid :
  match request (like_post pid (Some u)) w with
  | (inr r, w') => request (get_post pid (Some u)) w' = (inr r, w')
  | (inl _, _) => True
  end.
Proof.
  remember (get_post pid (Some u)) as G eqn:EG. symmetry in EG. unfold like_post.
  destruct (users (db w) !! u) as [ua|] eqn:Hu; [|by run].
  destruct (User.is_restricted ua) eqn:Hur; [by run|].
  destruct (posts (db w) !! pid) as [p|] eqn:Hp; [|by run].
  destruct (filter (like_matches pid u) (likes (db w))) as [|l [|l' ls]] eqn:Hrows;
    [| |by run].
  - run. destruct (decide (Post.user_id p = u)) as [Ha|Ha]; run_simpl.
    2: destruct (broker_up w) eqn:Hb; run_simpl; [|done].
    all: rewrite !lookup_alter_eq, Hp; run_simpl; subst G.
    all: rewrite (get_post_at _ u pid ua (incr_likes p));
      [|done|cbn; by rewrite lookup_alter_eq, Hp].
    all: cbn [session likes with_likes with_posts with_notifications].
    all: rewrite filter_app, Hrows, filter_cons, decide_True by done.
    all: rewrite bool_decide_eq_true_2 by done; by run_simpl.
  - run. subst G. rewrite (get_post_at _ u pid ua p) by done. cbn [session].
    rewrite Hrows. rewrite bool_decide_eq_true_2 by done. run_simpl.
    by rewrite world_eta.
Qed.

Lemma unlike_then_get w u pid :
  match request (unlike_post pid (Some u)) w with
  | (inr r, w') => request (get_post pid (Some u)) w' = (inr r, w')
  | (inl _, _) => True
  end.
Proof.
  remember (get_post pid (Some u)) as G eqn:EG. symmetry in EG.
  unfold unlike_post.
  destruct (users (db w) !! u) as [ua|] eqn:Hu; [|by run].
  destruct (User.is_restricted ua) eqn:Hur; [by run|].
  destruct (posts (db w) !! pid) as [p|] eqn:Hp; [|by run].
  destruct (filter (like_matches pid u) (likes (db w))) as [|l [|l' ls]] eqn:Hrows;
    [| |by run].
  - run. subst G. rewrite (get_post_at _ u pid ua p) by done. cbn [session].
    rewrite Hrows. rewrite bool_decide_eq_false_2 by auto. run_simpl.
    by rewrite ?world_eta.
  - run. rewrite !lookup_alter_eq, Hp. run_simpl. subst G.
    rewrite (get_post_at _ u pid ua (decr_likes p));
      [|done|cbn; by rewrite lookup_alter_eq, Hp].
    cbn [session likes with_likes with_posts].
    rewrite (like_rows_after_delete l _ _ _ Hrows).
    rewrite bool_decide_eq_false_2 by auto. by run_simpl.
Qed.

(** X27.  The answer of a like or an unlike is the post as it then is:
    whenever [like_post] or [unlike_post] answers, [get_post] of the same
    caller for the same post afterwards gives the same response, with the
    same [likes_count] and the same [is_liked] flag, and changes nothing. *)
Theorem like_answer_is_the_new_state (w w' : World) (u pid : N)
    (r : PostResponse.t) :
  request (like_post pid (Some u)) w = (inr r, w')
  ∨ request (unlike_post pid (Some u)) w = (inr r, w') →
  request (get_post pid (Some u)) w' = (inr r, w').
Proof.
  intros [H|H].
  - pose proof (like_then_get w u pid) as Hc. by rewrite H in Hc.
  - pose proof (unlike_then_get w u pid) as Hc. by rewrite H in Hc.
Qed.

Lemma like_answer_is_the_new_state_witness :
  request (get_post 10 (Some 2%N)) (request (like_post 10 (Some 2%N)) sample_world).2
  = (inr (post_to_response
            (mkPostObj 10 (incr_likes (sample_post 1 "public" 10))
               (Some (1%N, sample_user "alice" false))) true false),
     (request (like_post 10 (Some 2%N)) sample_world).2).
Proof.
  apply (like_answer_is_the_new_state sample_world _ 2 10).
  left. vm_compute. reflexivity.
Defined.
